(** * hook-editor: a shallow embedding of [hook-editor.py]

    The development follows the methods of the class [TikTokEditor]:
    the trim planner, the type inference on file names, the caption
    selector working on the rows of a remote worksheet, the text layout
    and the three render tiers driven by [process_single_video] and the
    batch loop of [run].

    Modelling conventions.
    - Python [str] values are [string]s; case mapping acts on the ASCII
      letters and the white space stripped by [str.strip] is the white
      space of the Latin-1 range.  The text handed to [textwrap] is a
      [list ascii].
    - Durations are exact rationals ([Q]); the rounding of binary
      floating point is outside the model.
    - A row returned by [get_all_records] is a dictionary from header to
      cell, a [gmap string string]; each cell is the text that [str]
      gives for it.
    - Console output ([print]) is not part of the model, the lines of the
      sheet statistics apart, which are the value of
      [show_sheet_statistics].  Calls that leave the process (spreadsheet
      client, [ffprobe], [ffmpeg], the transient caption file) are
      recorded in an event log, and their answers are read from an
      [environment]. *)

From Stdlib Require Import String Ascii QArith Qminmax ZArith Lia Lqa Sorted.
From stdpp Require Import base option list gmap strings.

Open Scope string_scope.

(** ** Python string operations *)

Module Py.

Definition is_upper (c : ascii) : bool :=
  let n := nat_of_ascii c in (65 <=? n)%nat && (n <=? 90)%nat.

Definition is_lower (c : ascii) : bool :=
  let n := nat_of_ascii c in (97 <=? n)%nat && (n <=? 122)%nat.

Definition lower_char (c : ascii) : ascii :=
  if is_upper c then ascii_of_nat (nat_of_ascii c + 32) else c.

Definition upper_char (c : ascii) : ascii :=
  if is_lower c then ascii_of_nat (nat_of_ascii c - 32) else c.

(** [str.isspace] on one character: TAB, LF, VT, FF, CR, the four
    separators FS, GS, RS, US, the space, NEL and the no-break space. *)
Definition isspace (c : ascii) : bool :=
  let n := nat_of_ascii c in
  ((9 <=? n)%nat && (n <=? 13)%nat) || ((28 <=? n)%nat && (n <=? 32)%nat)
  || (n =? 133)%nat || (n =? 160)%nat.

Fixpoint map_chars (f : ascii -> ascii) (s : string) : string :=
  match s with
  | EmptyString => EmptyString
  | String c s' => String (f c) (map_chars f s')
  end.

Definition lower : string -> string := map_chars lower_char.
Definition upper : string -> string := map_chars upper_char.

(** [str.capitalize]: first character upper-cased, the rest lower-cased. *)
Definition capitalize (s : string) : string :=
  match s with
  | EmptyString => EmptyString
  | String c s' => String (upper_char c) (lower s')
  end.

Fixpoint lstrip (s : string) : string :=
  match s with
  | EmptyString => EmptyString
  | String c s' => if isspace c then lstrip s' else s
  end.

(** [rstrip] keeps a character when it is not white space or when
    something is left after it. *)
Fixpoint rstrip (s : string) : string :=
  match s with
  | EmptyString => EmptyString
  | String c s' =>
      match rstrip s' with
      | EmptyString => if isspace c then EmptyString else String c EmptyString
      | r => String c r
      end
  end.

Definition strip (s : string) : string := rstrip (lstrip s).

(** [needle in hay] *)
Fixpoint contains (needle hay : string) : bool :=
  String.prefix needle hay
  || match hay with
     | EmptyString => false
     | String _ hay' => contains needle hay'
     end.

(** [s.rfind('.')]: the index of the last dot. *)
Fixpoint rfind_dot (s : string) : option nat :=
  match s with
  | EmptyString => None
  | String c s' =>
      match rfind_dot s' with
      | Some i => Some (S i)
      | None => if Ascii.eqb c "."%char then Some 0%nat else None
      end
  end.

(** Truthiness of an optional string: [None] and [''] are false. *)
Definition truthy (o : option string) : bool :=
  match o with
  | None | Some EmptyString => false
  | Some _ => true
  end.

End Py.

(** ** pathlib: the name of a file, its stem and its suffix *)

Module PurePath.

(** The dot that separates stem and suffix, when there is one: the last
    dot, provided it is neither the first nor the last character. *)
Definition split_point (name : string) : option nat :=
  match Py.rfind_dot name with
  | Some i =>
      if (0 <? i)%nat && (i <? String.length name - 1)%nat then Some i else None
  | None => None
  end.

Definition stem (name : string) : string :=
  match split_point name with
  | Some i => substring 0 i name
  | None => name
  end.

Definition suffix (name : string) : string :=
  match split_point name with
  | Some i => substring i (String.length name - i) name
  | None => EmptyString
  end.

End PurePath.

(** ** Configuration set in [__init__] *)

Definition start_trim : Q := 1 # 2.   (* 0.5 *)
Definition end_trim : Q := 1 # 4.     (* 0.25 *)

Definition video_extensions : list string :=
  [".mp4"; ".avi"; ".mov"; ".mkv"; ".flv"; ".wmv"; ".webm"].

(** The members of the set [valid_types].  The order in which Python
    iterates over the set is not fixed by the program; the functions
    below take that order as an argument. *)
Definition vocabulary : list string :=
  ["romantic"; "crying"; "confused"; "surprised"; "sad"].

(** ** Trim planner *)

Definition calculate_trimmed_duration (original_duration : Q) : Q :=
  let trimmed_duration := (original_duration - start_trim - end_trim)%Q in
  if Qle_bool trimmed_duration 0
  then Qmax (1 # 10) (original_duration * (8 # 10))
  else trimmed_duration.

(** ** Type inference *)

Fixpoint extract_type_from_filename
    (valid_types : list string) (filename : string) : option string :=
  let filename_lower := Py.lower filename in
  match valid_types with
  | [] => None
  | video_type :: later =>
      if Py.contains video_type filename_lower
      then Some (Py.capitalize video_type)
      else extract_type_from_filename later filename
  end.

(** ** Text layout: [textwrap.fill(text, width=23, break_long_words=False)]

    [TextWrapper] is used with its defaults apart from the two arguments
    above: [expand_tabs], [replace_whitespace], [drop_whitespace] and
    [break_on_hyphens] are on, both indents are empty, [tabsize] is 8 and
    [max_lines] is unset.  The module follows the methods of that class:
    [_munge_whitespace], [_split], [_wrap_chunks], [wrap] and [fill].
    Letters, digits and word characters are those of ASCII. *)

Module TextWrap.

Local Abbreviation text := (list ascii).

Definition HT : ascii := ascii_of_nat 9.
Definition LF : ascii := ascii_of_nat 10.
Definition CR : ascii := ascii_of_nat 13.
Definition SP : ascii := " "%char.
Definition HY : ascii := "-"%char.

(** The characters of [_whitespace]: TAB, LF, VT, FF, CR and space. *)
Definition is_whitespace (c : ascii) : bool :=
  let n := nat_of_ascii c in
  ((9 <=? n)%nat && (n <=? 13)%nat) || (n =? 32)%nat.

Definition is_digit (c : ascii) : bool :=
  let n := nat_of_ascii c in (48 <=? n)%nat && (n <=? 57)%nat.

(** [letter = [^\d\W]]: a word character that is not a digit. *)
Definition is_letter (c : ascii) : bool :=
  Py.is_upper c || Py.is_lower c || Ascii.eqb c "_"%char.

(** [\w] *)
Definition is_word_char (c : ascii) : bool := is_letter c || is_digit c.

(** [word_punct]: a word character or one of the seven marks
    exclamation mark, double quote, apostrophe, ampersand, full stop,
    comma and question mark. *)
Definition is_word_punct (c : ascii) : bool :=
  is_word_char c
  || existsb (Ascii.eqb c)
       ["!"%char; ascii_of_nat 34; "'"%char; "&"%char; "."%char; ","%char; "?"%char].

(** *** [_munge_whitespace] *)

Fixpoint expandtabs (tabsize column : nat) (s : text) : text :=
  match s with
  | [] => []
  | c :: s' =>
      if Ascii.eqb c HT then
        let incr := (tabsize - column mod tabsize)%nat in
        repeat SP incr ++ expandtabs tabsize (column + incr) s'
      else
        c :: expandtabs tabsize
               (if Ascii.eqb c LF || Ascii.eqb c CR then 0 else S column)%nat s'
  end.

Definition translate_whitespace (s : text) : text :=
  map (fun c => if is_whitespace c then SP else c) s.

Definition munge_whitespace (s : text) : text :=
  translate_whitespace (expandtabs 8 0 s).

(** *** [_split] with [wordsep_re]

    The pattern has three alternatives, tried in this order where a chunk
    starts: a run of white space; a dash of two or more hyphens between a
    [word_punct] character and a word character; a word, which is the
    shortest run of one or more non-space characters that is followed by
    a hyphen break, by white space or the end, or by a dash.  Matches
    follow each other without gaps, so the chunks are the matches. *)

Inductive mode := InSpace | InDash | InWord.

(** [-{2,}(?=\w)] at the head of [s]. *)
Fixpoint hyphens_then_word_char (seen : nat) (s : text) : bool :=
  match s with
  | [] => false
  | c :: s' =>
      if Ascii.eqb c HY then hyphens_then_word_char (S seen) s'
      else (2 <=? seen)%nat && is_word_char c
  end.

Definition dash_ahead (s : text) : bool := hyphens_then_word_char 0 s.

(** [(?<=letter{2}-) | (?<=letter-letter-)], with [before] the text in
    front of the hyphen, last character first. *)
Definition hyphen_lookbehind (before : text) : bool :=
  match before with
  | b1 :: b2 :: more =>
      is_letter b1
      && (is_letter b2
          || (Ascii.eqb b2 HY
              && match more with b3 :: _ => is_letter b3 | [] => false end))
  | _ => false
  end.

(** [(?=letter -? letter)] *)
Definition hyphen_lookahead (after : text) : bool :=
  match after with
  | c1 :: more =>
      is_letter c1
      && match more with
         | c2 :: more' =>
             if Ascii.eqb c2 HY
             then match more' with c3 :: _ => is_letter c3 | [] => false end
             else is_letter c2
         | [] => false
         end
  | [] => false
  end.

Definition last_is_word_punct (before : text) : bool :=
  match before with b :: _ => is_word_punct b | [] => false end.

(** Which alternative matches where a chunk starts with [c]. *)
Definition start_mode (before : text) (c : ascii) (after : text) : mode :=
  if is_whitespace c then InSpace
  else if last_is_word_punct before && dash_ahead (c :: after) then InDash
  else InWord.

(** Whether the chunk being read stops in front of [c]. *)
Definition ends_before (m : mode) (before : text) (c : ascii) (after : text) : bool :=
  match m with
  | InSpace => negb (is_whitespace c)
  | InDash => negb (Ascii.eqb c HY)
  | InWord => is_whitespace c || (last_is_word_punct before && dash_ahead (c :: after))
  end.

(** Whether the hyphen [c], read into a word that already has a
    character, closes the chunk. *)
Definition hyphen_break (m : mode) (before cur : text) (c : ascii) (after : text) : bool :=
  match m, cur with
  | InWord, _ :: _ =>
      Ascii.eqb c HY && hyphen_lookbehind before && hyphen_lookahead after
  | _, _ => false
  end.

Definition flush (cur : text) : list text :=
  match cur with [] => [] | _ => [rev cur] end.

(** [before] holds everything read so far and [cur] the chunk being
    read, both last character first. *)
Fixpoint split_from (m : mode) (before cur rest : text) : list text :=
  match rest with
  | [] => flush cur
  | c :: rest' =>
      let fresh := match cur with [] => true | _ => ends_before m before c rest' end in
      let m' := if fresh then start_mode before c rest' else m in
      let cur' := if fresh then [] else cur in
      (if fresh then flush cur else [])
      ++ (if hyphen_break m' before cur' c rest'
          then rev (c :: cur') :: split_from InWord (c :: before) [] rest'
          else split_from m' (c :: before) (c :: cur') rest')
  end.

Definition split (s : text) : list text := split_from InWord [] [] s.

Definition split_chunks (s : text) : list text := split (munge_whitespace s).

(** *** [_wrap_chunks] *)

(** [chunk.strip() == ''] *)
Definition is_blank (chunk : text) : bool := forallb Py.isspace chunk.

(** The inner loop: chunks are moved to the current line while they fit. *)
Fixpoint take_fitting (width cur_len : nat) (chunks : list text) : list text * list text :=
  match chunks with
  | [] => ([], [])
  | c :: rest =>
      if (cur_len + length c <=? width)%nat then
        let (line, rest') := take_fitting width (cur_len + length c) rest in
        (c :: line, rest')
      else ([], chunks)
  end.

(** [_handle_long_word] with [break_long_words=False]: the chunk that fits
    on no line is taken only by an empty line. *)
Definition handle_long_word (width : nat) (cur_line chunks : list text)
    : list text * list text :=
  match chunks with
  | c :: rest =>
      if (width <? length c)%nat then
        match cur_line with
        | [] => ([c], rest)
        | _ => (cur_line, chunks)
        end
      else (cur_line, chunks)
  | [] => (cur_line, chunks)
  end.

Definition drop_trailing_blank (cur_line : list text) : list text :=
  match last cur_line with
  | Some c => if is_blank c then removelast cur_line else cur_line
  | None => cur_line
  end.

(** One turn of the outer loop: the chunks of the next line and the
    chunks left.  [started] tells whether a line was already produced. *)
Definition next_line (width : nat) (started : bool) (chunks : list text)
    : list text * list text :=
  let chunks1 :=
    match chunks with
    | c :: rest => if is_blank c && started then rest else chunks
    | [] => chunks
    end in
  let (cur_line, chunks2) := take_fitting width 0 chunks1 in
  let (cur_line', chunks3) := handle_long_word width cur_line chunks2 in
  (drop_trailing_blank cur_line', chunks3).

Definition started (lines : list text) : bool :=
  match lines with [] => false | _ => true end.

Definition add_line (lines : list text) (cur_line : list text) : list text :=
  match cur_line with
  | [] => lines
  | _ => lines ++ [concat cur_line]
  end.

(** The outer loop, [while chunks:].  Every turn removes a chunk, so
    [fuel] as large as the number of chunks is never used up. *)
Fixpoint wrap_loop (fuel width : nat) (chunks lines : list text) : option (list text) :=
  match chunks with
  | [] => Some lines
  | _ :: _ =>
      match fuel with
      | O => None
      | S fuel' =>
          let (cur_line, chunks') := next_line width (started lines) chunks in
          wrap_loop fuel' width chunks' (add_line lines cur_line)
      end
  end.

Definition wrap_chunks (width : nat) (chunks : list text) : list text :=
  default [] (wrap_loop (length chunks) width chunks []).

Definition wrap (width : nat) (s : text) : list text :=
  wrap_chunks width (split_chunks s).

(** ["\n".join(lines)] *)
Fixpoint join_lines (lines : list text) : text :=
  match lines with
  | [] => []
  | [l] => l
  | l :: more => l ++ LF :: join_lines more
  end.

Definition fill (width : nat) (s : text) : text := join_lines (wrap width s).

(** [str.split()]: the words of a text, separated by white space. *)
Fixpoint words_from (cur : text) (s : text) : list text :=
  match s with
  | [] => flush cur
  | c :: s' =>
      if Py.isspace c then flush cur ++ words_from [] s'
      else words_from (c :: cur) s'
  end.

Definition words (s : text) : list text := words_from [] s.

End TextWrap.

(** [wrap_text_for_margins]; the argument [margin_percent] is not used by
    the body. *)
Definition chars_per_line : nat := 23.

Definition wrap_lines (text : string) : list (list ascii) :=
  TextWrap.wrap chars_per_line (list_ascii_of_string text).

Definition wrap_text_for_margins (text : string) : string :=
  string_of_list_ascii (TextWrap.fill chars_per_line (list_ascii_of_string text)).

(** ** The worksheet

    The remote worksheet as the program sees it through [gspread]: the
    header row and, for each data row, the dictionary that
    [get_all_records] returns.  Data row [i] (counted from 0) is sheet row
    [i + 2], and column [c] (counted from 1) is the column of the [c]-th
    header.  The program writes cells of existing data rows only; a write
    elsewhere leaves the records as they are. *)

Record worksheet := Worksheet {
  headers : list string;
  rows : list (gmap string string);
}.

Definition get_all_records (ws : worksheet) : list (gmap string string) := rows ws.

Definition update_cell (row col : nat) (value : string) (ws : worksheet) : worksheet :=
  match headers ws !! (col - 1)%nat with
  | Some header =>
      if (1 <=? col)%nat && (2 <=? row)%nat
      then Worksheet (headers ws)
             (alter (fun record => <[header := value]> record) (row - 2)%nat (rows ws))
      else ws
  | None => ws
  end.

Definition expected_headers : list string :=
  ["used?"; "mentions toffee?"; "type"; "overlay text"].

(** [check_sheet_format]: there is a data row, and the set of its keys,
    trimmed and in lower case, is the set of the expected headers.  The
    order of the columns does not enter. *)
Definition check_sheet_format (ws : worksheet) : bool :=
  match get_all_records ws with
  | [] => false
  | record :: _ =>
      bool_decide
        (set_map (fun h => Py.lower (Py.strip h)) (dom record)
         = (list_to_set (map (fun h => Py.lower (Py.strip h)) expected_headers)
            : gset string))
  end.

(** [str(record.get(key, ''))] *)
Definition cell (record : gmap string string) (key : string) : string :=
  default "" (record !! key).

(** ** The world outside the process *)

Inductive tier := Full | Fallback | NoText.

(** What an [ffmpeg] command line is built from.  [cmd_caption] is the
    content of the transient caption file that the [drawtext] filter
    reads, [cmd_font] the font file given to it.  The drawn height, which
    is random, and the fixed encoding flags are left out. *)
Record ffmpeg_cmd := FfmpegCmd {
  cmd_tier : tier;
  cmd_ss : Q;
  cmd_input : string;
  cmd_caption : option string;
  cmd_font : option string;
  cmd_duration : Q;
  cmd_output : string;
}.

Inductive event :=
  | GetAllRecords
  | UpdateCell (row col : nat) (value : string)
  | Ffprobe (path : string)
  | WriteCaption (content : string)
  | RemoveCaption
  | Ffmpeg (cmd : ffmpeg_cmd).

(** How a subprocess call ends: the process exits with a return code, or
    the call raises. *)
Inductive outcome := Exited (returncode : Z) | Raised.

Record environment := Environment {
  client_raises : nat -> bool;      (* does the n-th call of the spreadsheet client raise? *)
  probed_duration : string -> Q;    (* the result of get_video_duration, 0 on any failure *)
  font_file_exists : bool;          (* self.font_path.exists() *)
  system_font : option string;      (* get_system_font_path() *)
  ffmpeg_result : nat -> outcome;   (* how the n-th ffmpeg run ends *)
}.

Record world := World {
  sheet : worksheet;
  client_calls : nat;
  ffmpeg_runs : nat;
  caption_file : option string;
  output_files : list string;
  log : list event;
}.

Definition script_font : string := "assets/TikTokDisplay-Medium.ttf".
Definition input_path (name : string) : string := "input-videos/" +:+ name.

(** The output path as each of the three tiers builds it: the output
    directory, the stem of the input and the fixed ending [_edited.mp4]. *)
Definition output_path (name : string) : string :=
  "output-videos/" +:+ PurePath.stem name +:+ "_edited.mp4".

(** *** A state monad over [world] *)

Definition M (A : Type) : Type := world -> A * world.

Definition ret {A} (a : A) : M A := fun w => (a, w).

Definition bind {A B} (m : M A) (k : A -> M B) : M B :=
  fun w => let (a, w') := m w in k a w'.

Notation "'let*' x ':=' m 'in' k" := (bind m (fun x => k))
  (at level 10, x name, m at level 100, k at level 200).
Notation "m ';;' k" := (bind m (fun _ => k))
  (at level 100, k at level 200, right associativity).

Definition emit (e : event) : M unit :=
  fun w => (tt, World (sheet w) (client_calls w) (ffmpeg_runs w)
                      (caption_file w) (output_files w) (log w ++ [e])).

Section Editor.

Context (env : environment).

(** One call of the spreadsheet client.  A call that raises is taken
    not to have reached the sheet. *)
Definition client_call {A} (e : event) (run : worksheet -> A * worksheet)
    : M (option A) :=
  fun w =>
    let raises := client_raises env (client_calls w) in
    let (a, ws') := run (sheet w) in
    (if raises then None else Some a,
     World (if raises then sheet w else ws') (S (client_calls w)) (ffmpeg_runs w)
           (caption_file w) (output_files w) (log w ++ [e])).

Definition worksheet_get_all_records : M (option (list (gmap string string))) :=
  client_call GetAllRecords (fun ws => (get_all_records ws, ws)).

Definition worksheet_update_cell (row col : nat) (value : string) : M (option unit) :=
  client_call (UpdateCell row col value) (fun ws => (tt, update_cell row col value ws)).

(** ** Caption selector *)

Definition row_matches (video_type : string) (record : gmap string string) : bool :=
  let record_type := Py.strip (cell record "type") in
  let record_used := Py.upper (Py.strip (cell record "used?")) in
  String.eqb (Py.lower record_type) (Py.lower video_type)
  && String.eqb record_used "FALSE".

(** The loop [for i, record in enumerate(records)] up to its [return]. *)
Fixpoint scan_records (video_type : string) (i : nat)
    (records : list (gmap string string)) : option (nat * gmap string string) :=
  match records with
  | [] => None
  | record :: later =>
      if row_matches video_type record then Some (i, record)
      else scan_records video_type (S i) later
  end.

(** The [except] branch returns [None] when a client call raises. *)
Definition find_next_overlay_text (video_type : string) : M (option string) :=
  let* got := worksheet_get_all_records in
  match got with
  | None => ret None
  | Some records =>
      match scan_records video_type 0 records with
      | Some (i, record) =>
          let overlay_text := Py.strip (cell record "overlay text") in
          let row_number := (i + 2)%nat in
          let* written := worksheet_update_cell row_number 1 "TRUE" in
          match written with
          | None => ret None
          | Some _ => ret (Some overlay_text)
          end
      | None => ret None
      end
  end.

(** ** Media prober *)

Definition get_video_duration (name : string) : M Q :=
  emit (Ffprobe (input_path name));;
  ret (probed_duration env (input_path name)).

(** ** Render invoker *)

Definition write_caption (content : string) : M unit :=
  fun w => (tt, World (sheet w) (client_calls w) (ffmpeg_runs w)
                      (Some content) (output_files w) (log w ++ [WriteCaption content])).

(** [if text_file.exists(): text_file.unlink()] *)
Definition remove_caption : M unit :=
  fun w =>
    match caption_file w with
    | Some _ => (tt, World (sheet w) (client_calls w) (ffmpeg_runs w)
                           None (output_files w) (log w ++ [RemoveCaption]))
    | None => (tt, w)
    end.

(** One run of [ffmpeg]; a run that exits with 0 has written its output. *)
Definition run_ffmpeg (cmd : ffmpeg_cmd) : M outcome :=
  fun w =>
    let result := ffmpeg_result env (ffmpeg_runs w) in
    (result,
     World (sheet w) (client_calls w) (S (ffmpeg_runs w)) (caption_file w)
           (match result with
            | Exited 0 => output_files w ++ [cmd_output cmd]
            | _ => output_files w
            end)
           (log w ++ [Ffmpeg cmd])).

Definition edit_video_no_text (video_file : string) (trimmed_duration : Q) : M bool :=
  let cmd := FfmpegCmd NoText start_trim (input_path video_file) None None
               trimmed_duration (output_path video_file) in
  let* result := run_ffmpeg cmd in
  match result with
  | Exited returncode => ret (returncode =? 0)%Z
  | Raised => ret false
  end.

Definition edit_video_fallback (video_file overlay_text : string)
    (trimmed_duration : Q) : M bool :=
  let wrapped_text := wrap_text_for_margins overlay_text in
  write_caption wrapped_text;;
  let cmd := FfmpegCmd Fallback start_trim (input_path video_file) (Some wrapped_text)
               None trimmed_duration (output_path video_file) in
  let* result := run_ffmpeg cmd in
  remove_caption;;
  match result with
  | Exited returncode =>
      if (returncode =? 0)%Z then ret true
      else edit_video_no_text video_file trimmed_duration
  | Raised => ret false
  end.

Definition font_param : option string :=
  if font_file_exists env then Some script_font else system_font env.

Definition edit_video_with_text (video_file overlay_text : string)
    (trimmed_duration : Q) : M bool :=
  let wrapped_text := wrap_text_for_margins overlay_text in
  write_caption wrapped_text;;
  let cmd := FfmpegCmd Full start_trim (input_path video_file) (Some wrapped_text)
               font_param trimmed_duration (output_path video_file) in
  let* result := run_ffmpeg cmd in
  remove_caption;;
  match result with
  | Exited returncode =>
      if (returncode =? 0)%Z then ret true
      else edit_video_fallback video_file overlay_text trimmed_duration
  | Raised => ret false
  end.

(** ** Batch driver *)

Context (valid_types : list string).

Definition process_single_video (video_file : string) : M bool :=
  let video_type := extract_type_from_filename valid_types (PurePath.stem video_file) in
  if negb (Py.truthy video_type) then ret false
  else
    let* overlay_text := find_next_overlay_text (default "" video_type) in
    if negb (Py.truthy overlay_text) then ret false
    else
      let* original_duration := get_video_duration video_file in
      let trimmed_duration := calculate_trimmed_duration original_duration in
      edit_video_with_text video_file (default "" overlay_text) trimmed_duration.

(** The loop of [run] over the video files found, with the two lists
    of names it fills. *)
Fixpoint process_all (video_files successful_videos failed_videos : list string)
    : M (list string * list string) :=
  match video_files with
  | [] => ret (successful_videos, failed_videos)
  | video_file :: later =>
      let* ok := process_single_video video_file in
      if ok then process_all later (successful_videos ++ [video_file]) failed_videos
      else process_all later successful_videos (failed_videos ++ [video_file])
  end.

(** Calls of the selector one after the other. *)
Fixpoint select_each (video_types : list string) : M (list (option string)) :=
  match video_types with
  | [] => ret []
  | video_type :: later =>
      let* found := find_next_overlay_text video_type in
      let* more := select_each later in
      ret (found :: more)
  end.

End Editor.

(** A file of the input directory is a video when its suffix, in lower
    case, is one of [video_extensions]. *)
Definition is_video_file (name : string) : bool :=
  bool_decide (Py.lower (PurePath.suffix name) ∈ video_extensions).

(** The events logged after the first [n]. *)
Definition events_since (n : nat) (w : world) : list event := drop n (log w).

Definition ffmpeg_cmds (events : list event) : list ffmpeg_cmd :=
  omap (fun e => match e with Ffmpeg cmd => Some cmd | _ => None end) events.

Definition cell_writes (events : list event) : list (nat * nat * string) :=
  omap (fun e => match e with UpdateCell r c v => Some (r, c, v) | _ => None end) events.

(** An outcome that sends the cascade to its next tier. *)
Definition exits_nonzero (o : outcome) : Prop :=
  match o with
  | Exited returncode => returncode <> 0%Z
  | Raised => False
  end.

(** ** Notions used to state the properties *)

(** [video_type in filename.lower()] *)
Definition occurs_in (filename video_type : string) : bool :=
  Py.contains video_type (Py.lower filename).

(** A row is eligible for a video type when its type, trimmed, equals the
    requested type up to case, and its used flag, trimmed and in upper
    case, is [FALSE]. *)
Definition eligible (video_type : string) (record : gmap string string) : Prop :=
  Py.lower (Py.strip (cell record "type")) = Py.lower video_type
  /\ Py.upper (Py.strip (cell record "used?")) = "FALSE".

(** The event is a write to the given sheet row. *)
Definition writes_row (sheet_row : nat) (e : event) : Prop :=
  match e with
  | UpdateCell row _ _ => row = sheet_row
  | _ => False
  end.

(** What a call of the selector finds, read off the world it starts in. *)
Inductive selection :=
  | ClientDown        (* get_all_records raised *)
  | NothingLeft       (* no eligible row *)
  | Picked (i : nat) (record : gmap string string) (written : bool).

Definition selection_of (env : environment) (video_type : string) (w : world)
    : selection :=
  if client_raises env (client_calls w) then ClientDown
  else match scan_records video_type 0 (rows (sheet w)) with
       | None => NothingLeft
       | Some (i, record) =>
           Picked i record (negb (client_raises env (S (client_calls w))))
       end.

(** The tiers of the commands among the events, in the order of the runs. *)
Definition tiers_run (events : list event) : list tier :=
  map cmd_tier (ffmpeg_cmds events).

(** The event is a call of the spreadsheet client. *)
Definition is_client_event (e : event) : bool :=
  match e with
  | GetAllRecords | UpdateCell _ _ _ => true
  | _ => false
  end.

(** The first eligible row of the records, with its position. *)
Definition first_eligible (video_type : string) (records : list (gmap string string))
    (i : nat) (record : gmap string string) : Prop :=
  records !! i = Some record
  /\ eligible video_type record
  /\ forall i' record', (i' < i)%nat -> records !! i' = Some record' ->
       ~ eligible video_type record'.

(** The world after the read of the records, after the write that marks
    data row [i], and after the probe of a video. *)
Definition after_read (w : world) : world :=
  World (sheet w) (S (client_calls w)) (ffmpeg_runs w) (caption_file w)
        (output_files w) (log w ++ [GetAllRecords]).

Definition after_pick (i : nat) (written : bool) (w : world) : world :=
  World (if written then update_cell (i + 2) 1 "TRUE" (sheet w) else sheet w)
        (S (S (client_calls w))) (ffmpeg_runs w) (caption_file w) (output_files w)
        (log w ++ [GetAllRecords; UpdateCell (i + 2) 1 "TRUE"]).

Definition after_probe (video_file : string) (w : world) : world :=
  World (sheet w) (client_calls w) (ffmpeg_runs w) (caption_file w) (output_files w)
        (log w ++ [Ffprobe (input_path video_file)]).

(** The name that would keep the extension of the input. *)
Definition output_keeping_extension (video_file : string) : string :=
  "output-videos/" +:+ PurePath.stem video_file +:+ "_edited"
  +:+ PurePath.suffix video_file.

(** A run of the driver that reaches the render tiers: the type was
    inferred, the selector picked a row and marked it, the video was
    probed, and the cascade ran on the picked text. *)
Definition reaches_render (env : environment) (valid_types : list string)
    (video_file : string) (w : world)
    (i : nat) (record : gmap string string) (rest : list event) : Prop :=
  exists video_type,
    extract_type_from_filename valid_types (PurePath.stem video_file) = Some video_type
    /\ selection_of env video_type w = Picked i record true
    /\ let run := process_single_video env valid_types video_file w in
       log run.2
       = (log w ++ GetAllRecords :: UpdateCell (i + 2) 1 "TRUE"
                   :: Ffprobe (input_path video_file) :: rest)%list
       /\ sheet run.2 = update_cell (i + 2) 1 "TRUE" (sheet w)
       /\ cell_writes rest = []
       /\ Forall (fun cmd => cmd_output cmd = output_path video_file) (ffmpeg_cmds rest)
       /\ output_files run.2
          = (if run.1 then output_files w ++ [output_path video_file]
             else output_files w)%list.

(** The output of a video that was processed keeps the extension of the
    input. *)
Definition output_keeps_extension (env : environment) (valid_types : list string)
    (video_file : string) (w : world) : Prop :=
  let run := process_single_video env valid_types video_file w in
  is_video_file video_file = true -> run.1 = true ->
  output_keeping_extension video_file ∈ output_files run.2.

(** The chunks of a text are laid out in lines: [groups] lists, line by
    line, the chunks of each line; the chunks left out between the lines
    are blank. *)
Inductive segmented : list (list ascii) -> list (list (list ascii)) -> Prop :=
  | segmented_nil : segmented [] []
  | segmented_drop chunk chunks groups :
      TextWrap.is_blank chunk = true ->
      segmented chunks groups -> segmented (chunk :: chunks) groups
  | segmented_line group chunks groups :
      group <> [] ->
      segmented chunks groups -> segmented (group ++ chunks) (group :: groups).

(** The total length of the chunks of a line. *)
Definition line_length (group : list (list ascii)) : nat :=
  length (concat group).

(** A line fits the width, or it is one chunk that is longer than the
    width. *)
Definition fits (width : nat) (group : list (list ascii)) : Prop :=
  group <> []
  /\ (line_length group <= width \/ exists c, group = [c] /\ width < length c).

(** A chunk that is a run of white space, in the sense of [textwrap]. *)
Definition is_space_run (chunk : list ascii) : bool :=
  forallb TextWrap.is_whitespace chunk.

(** The mode in which a run of white space is read. *)
Definition mode_is_space (m : TextWrap.mode) : bool :=
  match m with TextWrap.InSpace => true | _ => false end.

(** Of two chunks that follow each other, one is a run of white space. *)
Fixpoint spaced (chunks : list (list ascii)) : Prop :=
  match chunks with
  | c1 :: (c2 :: _) as later =>
      (is_space_run c1 = true \/ is_space_run c2 = true) /\ spaced later
  | _ => True
  end.

(** The words of the lines are the words of the text: no word is split,
    merged with another or lost. *)
Definition keeps_words_whole (text : string) : Prop :=
  flat_map TextWrap.words (wrap_lines text)
  = TextWrap.words (list_ascii_of_string text).

(** ** Sample data *)

Module Sample.

Definition caption_row (used mentions type text : string) : gmap string string :=
  {[ "used?" := used; "mentions toffee?" := mentions;
     "type" := type; "overlay text" := text ]}.

Definition used_row : gmap string string :=
  caption_row "TRUE" "FALSE" "Sad" "Gone".
Definition free_row : gmap string string :=
  caption_row "false" "FALSE" " sad " " Miss you ".
Definition blank_row : gmap string string :=
  caption_row "" "FALSE" "Sad" "Never shown".

Definition captions : worksheet :=
  Worksheet ["used?"; "mentions toffee?"; "type"; "overlay text"]
            [used_row; free_row; blank_row].

Definition start (ws : worksheet) : world := World ws 0 0 None [] [].

(** The client never raises, the probe reports ten seconds, the bundled
    font is there; [results] tells how the runs of ffmpeg end. *)
Definition calm (results : nat -> outcome) : environment :=
  Environment (fun _ => false) (fun _ => 10%Q) true None results.

Definition all_succeed : environment := calm (fun _ => Exited 0).
Definition all_fail : environment := calm (fun _ => Exited 1).

(** The same rows under headers in another order. *)
Definition reordered : worksheet :=
  Worksheet ["type"; "used?"; "mentions toffee?"; "overlay text"]
            [used_row; free_row; blank_row].

(** The world after the first call of the selector for the type [Sad]. *)
Definition after_first_pick : world :=
  (find_next_overlay_text all_succeed "Sad" (start captions)).2.

End Sample.

(** ** More of the editor *)

(** *** The video files of the input directory

    [listing] holds the names that [iterdir] yields, in its order, and is
    [None] when the directory does not exist.  [sorted] orders the paths of
    one directory by their names, character by character, as path objects
    compare on POSIX systems. *)

Fixpoint insert_sorted (name : string) (names : list string) : list string :=
  match names with
  | [] => [name]
  | first :: later =>
      if String.leb name first then name :: names
      else first :: insert_sorted name later
  end.

Definition sorted (names : list string) : list string :=
  foldr insert_sorted [] names.

Definition find_video_file (listing : option (list string)) : option string :=
  match listing with
  | None => None
  | Some names => List.find is_video_file names
  end.

Definition find_all_video_files (listing : option (list string)) : list string :=
  match listing with
  | None => []
  | Some names => sorted (List.filter is_video_file names)
  end.

(** The order of [sorted]. *)
Definition name_le (a b : string) : Prop := String.leb a b = true.

(** *** Notions for the further properties *)

(** The overlay texts of the rows that are eligible for a type, in row
    order. *)
Definition eligible_texts (video_type : string)
    (records : list (gmap string string)) : list string :=
  map (fun record => Py.strip (cell record "overlay text"))
      (List.filter (row_matches video_type) records).



(** ** Sheet statistics *)

(** One entry of the dictionary [type_stats]. *)
Record type_stat := TypeStat {
  stat_total : nat;
  stat_used : nat;
  stat_available : nat;
}.

(** The three updates of an entry for one row. *)
Definition count_row (used : bool) (stats : type_stat) : type_stat :=
  TypeStat (stat_total stats + 1)
           (if used then stat_used stats + 1 else stat_used stats)
           (if used then stat_available stats else stat_available stats + 1).

(** [type_stats] is kept as the list of its items in the order in which
    the keys were inserted, which is the order in which Python iterates
    over the dictionary.  A key that is not there yet is inserted with
    the three counts at zero, then counted. *)
Fixpoint count_type (video_type : string) (used : bool)
    (type_stats : list (string * type_stat)) : list (string * type_stat) :=
  match type_stats with
  | [] => [(video_type, count_row used (TypeStat 0 0 0))]
  | (key, stats) :: later =>
      if String.eqb key video_type then (key, count_row used stats) :: later
      else (key, stats) :: count_type video_type used later
  end.

(** The body of the loop [for record in records]. *)
Definition count_record (type_stats : list (string * type_stat))
    (record : gmap string string) : list (string * type_stat) :=
  let video_type := Py.strip (cell record "type") in
  let used := String.eqb (Py.upper (Py.strip (cell record "used?"))) "TRUE" in
  count_type video_type used type_stats.

Definition type_statistics (records : list (gmap string string))
    : list (string * type_stat) :=
  fold_left count_record records [].

(** The lines that are printed, as type, available and total; an entry
    whose type is empty is skipped. *)
Definition statistics_lines (type_stats : list (string * type_stat))
    : list (string * nat * nat) :=
  omap (fun entry : string * type_stat =>
          if Py.truthy (Some entry.1)
          then Some (entry.1, stat_available entry.2, stat_total entry.2)
          else None)
       type_stats.

(** ** The sheet id: configuration file and console

    [config] is the content of [sheet_config.txt], [None] when the file
    does not exist.  The console answers with the line typed; the end of
    the input, on which [input] raises, is outside the model. *)
Record console := Console {
  read_raises : bool;                   (* reading the configuration file raises *)
  typed : string;                       (* the line that input() returns *)
  failed_write : option (option string) (* when writing the file raises: what is left of it *)
}.

Definition get_sheet_id_from_user (io : console) (config : option string)
    : option string * option string :=
  let saved :=
    match config with
    | Some content =>
        if read_raises io then None
        else let saved_id := Py.strip content in
             if Py.truthy (Some saved_id) then Some saved_id else None
    | None => None
    end in
  match saved with
  | Some saved_id => (Some saved_id, config)
  | None =>
      let sheet_id := Py.strip (typed io) in
      if Py.truthy (Some sheet_id) then
        (Some sheet_id,
         match failed_write io with
         | None => Some sheet_id
         | Some left_behind => left_behind
         end)
      else (None, config)
  end.

(** ** The session: from the checks of [run] to the batch *)

(** What [run] finds on the machine before it reaches the sheet. *)
Record setup := Setup {
  ffmpeg_installed : bool;          (* shutil.which('ffmpeg') *)
  sheets_library : bool;            (* GOOGLE_SHEETS_AVAILABLE *)
  credentials_exist : bool;         (* credentials_path.exists() *)
  authorize_raises : bool;          (* reading the credentials or gspread.authorize raises *)
  console_io : console;
  config_file : option string;      (* the content of sheet_config.txt *)
  open_raises : string -> bool;     (* opening the spreadsheet or its worksheet raises *)
  listing : option (list string);   (* the names in the input directory *)
}.

Definition check_dependencies (s : setup) : bool :=
  if negb (ffmpeg_installed s) then false
  else if negb (sheets_library s) then false
  else true.

Definition setup_google_sheets (s : setup) : bool :=
  if negb (credentials_exist s) then false
  else if authorize_raises s then false
  else true.

(** [self.sheet_id] is [None] when [run] starts, so the id is asked for;
    the second component is the configuration file afterwards. *)
Definition connect_to_sheet (s : setup) : bool * option string :=
  let (sheet_id, config) := get_sheet_id_from_user (console_io s) (config_file s) in
  if negb (Py.truthy sheet_id) then (false, config)
  else (negb (open_raises s (default "" sheet_id)), config).

Module Session.

Section Session.

Context (env : environment) (valid_types : list string).

(** [check_sheet_format] as the method is written: one read of the
    records, [False] when the client raises. *)
Definition check_sheet_format : M bool :=
  let* got := client_call env GetAllRecords (fun ws => (check_sheet_format ws, ws)) in
  ret (default false got).

(** [show_sheet_statistics] returns nothing; the value here is what it
    prints, [None] when the client raises. *)
Definition show_sheet_statistics : M (option (list (string * nat * nat))) :=
  let* got := worksheet_get_all_records env in
  match got with
  | None => ret None
  | Some records => ret (Some (statistics_lines (type_statistics records)))
  end.

(** [run]: the result and the configuration file it leaves.  The input
    directory is created when it is missing, so the listing is there when
    the videos are looked for. *)
Definition run (s : setup) : M (bool * option string) :=
  if negb (check_dependencies s) then ret (false, config_file s)
  else if negb (setup_google_sheets s) then ret (false, config_file s)
  else
    let (connected, config) := connect_to_sheet s in
    if negb connected then ret (false, config)
    else
      let* format_ok := check_sheet_format in
      if negb format_ok then ret (false, config)
      else
        show_sheet_statistics;;
        let video_files := find_all_video_files (Some (default [] (listing s))) in
        match video_files with
        | [] => ret (false, config)
        | _ :: _ =>
            let* lists := process_all env valid_types video_files [] [] in
            ret (negb (length lists.1 =? 0)%nat, config)
        end.

End Session.

End Session.

(** The characters of a text that are no white space, in their order. *)
Definition visible (s : list ascii) : list ascii :=
  List.filter (fun c => negb (Py.isspace c)) s.

(** The sheet row of a write. *)
Definition row_of (write : nat * nat * string) : nat := write.1.1.

(** *** Notions for the statistics *)

(** The row has the given type, trimmed and as it is spelled. *)
Definition has_type (key : string) (record : gmap string string) : bool :=
  String.eqb (Py.strip (cell record "type")) key.

(** The used flag of the row, trimmed and in upper case, reads [TRUE]. *)
Definition marked_used (record : gmap string string) : bool :=
  String.eqb (Py.upper (Py.strip (cell record "used?"))) "TRUE".

Definition count_rows (p : gmap string string -> bool)
    (records : list (gmap string string)) : nat :=
  length (List.filter p records).

(** The rows of a type, as spelled, that the selector can hand out. *)
Definition free_for (key : string) (record : gmap string string) : bool :=
  has_type key record && row_matches key record.

(** *** More sample data *)

Module MoreSamples.

(** A sheet whose headers are capitalised. *)
Definition capitalised : worksheet :=
  Worksheet ["Used?"; "Mentions Toffee?"; "Type"; "Overlay Text"]
    [ {[ "Used?" := "FALSE"; "Mentions Toffee?" := "FALSE";
         "Type" := "Sad"; "Overlay Text" := "Miss you" ]} ].

(** Four rows, three of them free for the type [Sad]. *)
Definition four_rows : worksheet :=
  Worksheet ["used?"; "mentions toffee?"; "type"; "overlay text"]
    [ Sample.caption_row "FALSE" "FALSE" "Sad" "one";
      Sample.caption_row "FALSE" "FALSE" "Crying" "tears";
      Sample.caption_row "False" "TRUE" "SAD" " two ";
      Sample.caption_row "FALSE" "FALSE" "sad" "" ].

(** One free row for the type [Sad] whose overlay text is blank. *)
Definition blank_caption : worksheet :=
  Worksheet ["used?"; "mentions toffee?"; "type"; "overlay text"]
    [ Sample.caption_row "FALSE" "FALSE" "Sad" "   ";
      Sample.caption_row "FALSE" "FALSE" "Sad" "Still here" ].

(** A machine on which every check of [run] passes: the id is typed at
    the console and saved, the input directory holds one video and a file
    that is none. *)
Definition ready : setup :=
  Setup true true true false (Console false " sheet-1 " None) None (fun _ => false)
        (Some ["sad_01.mp4"; "notes.txt"]).

End MoreSamples.

(** * Properties *)

(** ** Trim planner *)

Section TrimPlanner.

Local Open Scope Q_scope.

Lemma trim_constants : start_trim == 0.5 /\ end_trim == 0.25.
Proof. split; reflexivity. Qed.

Lemma trimmed_when_positive (d : Q) :
  0 < d - start_trim - end_trim ->
  calculate_trimmed_duration d = d - start_trim - end_trim.
Proof.
  intros Hpos. unfold calculate_trimmed_duration.
  destruct (Qle_bool (d - start_trim - end_trim) 0) eqn:Hle; [|reflexivity].
  apply Qle_bool_iff in Hle. exfalso.
  exact (Qlt_not_le _ _ Hpos Hle).
Qed.

Lemma trimmed_when_too_short (d : Q) :
  d - start_trim - end_trim <= 0 ->
  calculate_trimmed_duration d = Qmax 0.1 (d * 0.8).
Proof.
  intros Hle. unfold calculate_trimmed_duration.
  apply Qle_bool_iff in Hle. rewrite Hle. reflexivity.
Qed.

(** C1. The trim planner is piecewise: a duration above 0.75 loses 0.75
    (0.5 at the start and 0.25 at the end); a duration of at most 0.75,
    zero included, gives the larger of 0.1 and 0.8 times the duration. *)
Theorem calculate_trimmed_duration_piecewise (d : Q) :
  (0.75 < d -> calculate_trimmed_duration d == d - 0.75) /\
  (d <= 0.75 -> calculate_trimmed_duration d == Qmax 0.1 (d * 0.8)).
Proof.
  split; intros Hd.
  - rewrite trimmed_when_positive.
    + unfold start_trim, end_trim. ring.
    + unfold start_trim, end_trim. lra.
  - rewrite trimmed_when_too_short; [reflexivity|].
    unfold start_trim, end_trim. lra.
Qed.

Lemma calculate_trimmed_duration_piecewise_witness :
  calculate_trimmed_duration 10 == 10 - 0.75 /\
  calculate_trimmed_duration 0 == Qmax 0.1 (0 * 0.8).
Proof.
  split.
  - apply (proj1 (calculate_trimmed_duration_piecewise 10)). reflexivity.
  - apply (proj2 (calculate_trimmed_duration_piecewise 0)). discriminate.
Defined.

(** The floor of the fallback keeps every planned duration positive. *)
Lemma calculate_trimmed_duration_positive (d : Q) :
  0 < calculate_trimmed_duration d.
Proof.
  unfold calculate_trimmed_duration.
  destruct (Qle_bool (d - start_trim - end_trim) 0) eqn:Hle.
  - apply Qlt_le_trans with (y := 0.1); [reflexivity | apply Q.le_max_l].
  - apply Qnot_le_lt. intros H. apply Qle_bool_iff in H. congruence.
Qed.

Example planned_ten_seconds : calculate_trimmed_duration 10 == 9.25.
Proof. reflexivity. Qed.

Example planned_probe_failure : calculate_trimmed_duration 0 == 0.1.
Proof. reflexivity. Qed.

End TrimPlanner.

(** ** Type inference *)

Section TypeInference.


Lemma extract_type_none (valid_types : list string) (filename : string) :
  Forall (fun k => occurs_in filename k = false) valid_types ->
  extract_type_from_filename valid_types filename = None.
Proof.
  induction 1 as [|k later Hk _ IH]; [reflexivity|].
  cbn [extract_type_from_filename]. unfold occurs_in in Hk.
  rewrite Hk. exact IH.
Qed.

(** The result is the first keyword, in iteration order, that occurs in
    the lower-cased file name. *)
Lemma extract_type_first (valid_types : list string) (filename k : string) :
  k ∈ valid_types -> occurs_in filename k = true ->
  exists earlier first later,
    valid_types = (earlier ++ first :: later)%list
    /\ Forall (fun k' => occurs_in filename k' = false) earlier
    /\ occurs_in filename first = true
    /\ extract_type_from_filename valid_types filename = Some (Py.capitalize first).
Proof.
  induction valid_types as [|v later IH]; intros Hin Hocc.
  - inversion Hin.
  - destruct (occurs_in filename v) eqn:Hv.
    + exists [], v, later. repeat split; [constructor | assumption |].
      cbn [extract_type_from_filename]. unfold occurs_in in Hv. now rewrite Hv.
    + assert (Hk : k ∈ later).
      { apply elem_of_cons in Hin as [->|Hin]; [congruence | assumption]. }
      destruct (IH Hk Hocc) as (earlier & first & rest & -> & Hnone & Hfirst & Hres).
      exists (v :: earlier), first, rest. repeat split; try assumption.
      * constructor; assumption.
      * cbn [extract_type_from_filename]. unfold occurs_in in Hv. now rewrite Hv.
Qed.

Lemma vocabulary_cases (P : string -> Prop) :
  P "romantic" -> P "crying" -> P "confused" -> P "surprised" -> P "sad" ->
  forall k, k ∈ vocabulary -> P k.
Proof.
  intros H1 H2 H3 H4 H5 k Hk. unfold vocabulary in Hk.
  repeat (apply elem_of_cons in Hk as [->|Hk]; [assumption|]).
  inversion Hk.
Qed.

(** C7. Whatever the iteration order of the five keywords:
    ["my_romantic_clip.mp4"] gives ["Romantic"], ["clip.mp4"] gives
    [None], and a file name in which two keywords occur gives exactly
    one result, the capitalised first keyword of the iteration order that
    occurs in the lower-cased name. *)
Theorem extract_type_from_filename_inference (valid_types : list string) :
  valid_types ≡ₚ vocabulary ->
  extract_type_from_filename valid_types "my_romantic_clip.mp4" = Some "Romantic"
  /\ extract_type_from_filename valid_types "clip.mp4" = None
  /\ forall filename k1 k2,
       k1 ∈ vocabulary -> k2 ∈ vocabulary -> k1 <> k2 ->
       occurs_in filename k1 = true -> occurs_in filename k2 = true ->
       exists earlier first later,
         valid_types = (earlier ++ first :: later)%list
         /\ Forall (fun k => occurs_in filename k = false) earlier
         /\ occurs_in filename first = true
         /\ first ∈ vocabulary
         /\ extract_type_from_filename valid_types filename
            = Some (Py.capitalize first).
Proof.
  intros Hperm. split; [|split].
  - assert (Hin : "romantic" ∈ valid_types).
    { rewrite Hperm. apply list_elem_of_here. }
    destruct (extract_type_first valid_types "my_romantic_clip.mp4" "romantic" Hin eq_refl)
      as (earlier & first & later & Heq & _ & Hocc & ->).
    assert (Hvoc : first ∈ vocabulary).
    { rewrite <- Hperm, Heq. apply elem_of_app. right. apply list_elem_of_here. }
    clear Heq. revert first Hvoc Hocc.
    apply (vocabulary_cases
             (fun k => occurs_in "my_romantic_clip.mp4" k = true ->
                       Some (Py.capitalize k) = Some "Romantic"));
      vm_compute; congruence.
  - apply extract_type_none. rewrite Hperm.
    unfold vocabulary. repeat constructor.
  - intros filename k1 k2 Hk1 _ _ Hocc1 _.
    assert (Hin : k1 ∈ valid_types) by now rewrite Hperm.
    destruct (extract_type_first valid_types filename k1 Hin Hocc1)
      as (earlier & first & later & Heq & Hnone & Hocc & Hres).
    exists earlier, first, later. repeat split; try assumption.
    rewrite <- Hperm, Heq. apply elem_of_app. right. apply list_elem_of_here.
Qed.

Lemma extract_type_from_filename_inference_witness :
  extract_type_from_filename vocabulary "my_romantic_clip.mp4" = Some "Romantic"
  /\ extract_type_from_filename vocabulary "clip.mp4" = None
  /\ extract_type_from_filename vocabulary "sad_romantic_01" = Some "Romantic".
Proof.
  destruct (extract_type_from_filename_inference vocabulary (reflexivity _))
    as (Hromantic & Hnone & Htwo).
  split; [exact Hromantic | split; [exact Hnone |]].
  destruct (Htwo "sad_romantic_01" "sad" "romantic") as (earlier & first & later & _);
    [ repeat first [apply list_elem_of_here | apply list_elem_of_further]
    | apply list_elem_of_here | discriminate | reflexivity | reflexivity |].
  reflexivity.
Defined.

(** With two keywords in the name the result depends on the iteration
    order. *)
Remark extract_type_depends_on_order :
  extract_type_from_filename ["sad"; "romantic"; "crying"; "confused"; "surprised"]
    "sad_romantic_01" = Some "Sad"
  /\ extract_type_from_filename ["romantic"; "crying"; "confused"; "surprised"; "sad"]
       "sad_romantic_01" = Some "Romantic".
Proof. split; reflexivity. Qed.

End TypeInference.

(** ** Caption selector *)

Section Selector.

Context (env : environment).


Lemma row_matches_eligible (video_type : string) (record : gmap string string) :
  row_matches video_type record = true <-> eligible video_type record.
Proof.
  unfold row_matches, eligible.
  rewrite andb_true_iff, !String.eqb_eq. reflexivity.
Qed.

Lemma row_matches_not_eligible (video_type : string) (record : gmap string string) :
  row_matches video_type record = false <-> ~ eligible video_type record.
Proof.
  rewrite <- row_matches_eligible. destruct (row_matches video_type record); split;
    congruence.
Qed.

Lemma scan_records_none (video_type : string) (k : nat)
    (records : list (gmap string string)) :
  scan_records video_type k records = None <->
  Forall (fun record => ~ eligible video_type record) records.
Proof.
  revert k. induction records as [|record later IH]; intros k; cbn [scan_records].
  - split; [constructor | reflexivity].
  - destruct (row_matches video_type record) eqn:Hm.
    + split; [discriminate|]. intros H. inversion H as [|? ? Hne _]; subst.
      apply row_matches_eligible in Hm. contradiction.
    + rewrite IH. apply row_matches_not_eligible in Hm. split.
      * intros H. constructor; assumption.
      * intros H. inversion H; assumption.
Qed.

(** The scan returns the first eligible row, with its position. *)
Lemma scan_records_some (video_type : string) (k : nat)
    (records : list (gmap string string)) (j : nat) (record : gmap string string) :
  scan_records video_type k records = Some (j, record) <->
  exists i, j = (k + i)%nat
    /\ records !! i = Some record
    /\ eligible video_type record
    /\ forall i' record', (i' < i)%nat -> records !! i' = Some record' ->
         ~ eligible video_type record'.
Proof.
  revert k. induction records as [|r later IH]; intros k; cbn [scan_records].
  - split; [discriminate|]. intros (i & _ & Hi & _). discriminate.
  - destruct (row_matches video_type r) eqn:Hm.
    + apply row_matches_eligible in Hm. split.
      * intros [= <- <-]. exists 0%nat.
        split; [lia | split; [reflexivity | split; [assumption|]]].
        intros i' r' Hlt. lia.
      * intros (i & -> & Hi & Hel & Hfirst). destruct i as [|i].
        -- cbn in Hi. injection Hi as <-. f_equal. f_equal. lia.
        -- exfalso. apply (Hfirst 0%nat r); [lia | reflexivity | assumption].
    + rewrite IH. apply row_matches_not_eligible in Hm. split.
      * intros (i & -> & Hi & Hel & Hfirst). exists (S i).
        split; [lia | split; [assumption | split; [assumption|]]].
        intros [|i'] r' Hlt Hr'.
        -- cbn in Hr'. injection Hr' as <-. assumption.
        -- apply (Hfirst i' r'); [lia | assumption].
      * intros (i & -> & Hi & Hel & Hfirst). destruct i as [|i].
        -- cbn in Hi. injection Hi as <-. contradiction.
        -- exists i. split; [lia | split; [assumption | split; [assumption|]]].
           intros i' r' Hlt Hr'. apply (Hfirst (S i') r'); [lia | assumption].
Qed.

(** *** What one call of the selector does to the world *)

Lemma update_cell_rows (i : nat) (value header : string) (ws : worksheet) :
  headers ws !! 0%nat = Some header ->
  rows (update_cell (i + 2) 1 value ws)
  = alter (fun record => <[header := value]> record) i (rows ws).
Proof.
  intros Hh. unfold update_cell. cbn [Nat.sub]. rewrite Hh.
  replace (1 <=? 1)%nat with true by reflexivity.
  replace (2 <=? i + 2)%nat with true by (symmetry; apply Nat.leb_le; lia).
  cbn [andb rows]. replace (i + 2 - 2)%nat with i by lia. reflexivity.
Qed.

Lemma update_cell_headers (row col : nat) (value : string) (ws : worksheet) :
  headers (update_cell row col value ws) = headers ws.
Proof.
  unfold update_cell. destruct (headers ws !! (col - 1)%nat); [|reflexivity].
  destruct ((1 <=? col)%nat && (2 <=? row)%nat); reflexivity.
Qed.

(** A write to column 1 changes the row it names and no other. *)
Lemma update_cell_other_row (i j : nat) (value : string) (ws : worksheet) :
  i <> j ->
  rows (update_cell (i + 2) 1 value ws) !! j = rows ws !! j.
Proof.
  intros Hne. destruct (headers ws !! 0%nat) as [header|] eqn:Hh.
  - rewrite (update_cell_rows _ _ header) by assumption.
    now apply list_lookup_alter_ne.
  - unfold update_cell. cbn [Nat.sub]. now rewrite Hh.
Qed.


Lemma find_next_overlay_text_run (video_type : string) (w : world) :
  find_next_overlay_text env video_type w =
  match selection_of env video_type w with
  | ClientDown | NothingLeft =>
      (None, World (sheet w) (S (client_calls w)) (ffmpeg_runs w) (caption_file w)
                   (output_files w) (log w ++ [GetAllRecords]))
  | Picked i record written =>
      (if written then Some (Py.strip (cell record "overlay text")) else None,
       World (if written then update_cell (i + 2) 1 "TRUE" (sheet w) else sheet w)
             (S (S (client_calls w))) (ffmpeg_runs w) (caption_file w)
             (output_files w)
             (log w ++ [GetAllRecords; UpdateCell (i + 2) 1 "TRUE"]))
  end.
Proof.
  unfold find_next_overlay_text, selection_of, bind, worksheet_get_all_records,
    worksheet_update_cell, client_call, get_all_records, ret.
  cbn [sheet client_calls ffmpeg_runs caption_file output_files log].
  destruct (client_raises env (client_calls w)); [reflexivity|].
  destruct (scan_records video_type 0 (rows (sheet w))) as [[i record]|]; [|reflexivity].
  cbn [sheet client_calls ffmpeg_runs caption_file output_files log].
  rewrite <- app_assoc. cbn [app].
  destruct (client_raises env (S (client_calls w))); reflexivity.
Qed.


Lemma selection_picked (video_type : string) (w : world) (i : nat)
    (record : gmap string string) (written : bool) :
  selection_of env video_type w = Picked i record written ->
  rows (sheet w) !! i = Some record
  /\ eligible video_type record
  /\ (forall i' record', (i' < i)%nat -> rows (sheet w) !! i' = Some record' ->
        ~ eligible video_type record')
  /\ client_raises env (client_calls w) = false
  /\ written = negb (client_raises env (S (client_calls w))).
Proof.
  unfold selection_of. destruct (client_raises env (client_calls w)); [discriminate|].
  destruct (scan_records video_type 0 (rows (sheet w))) as [[j r]|] eqn:Hscan;
    [|discriminate].
  intros [= -> -> <-]. apply scan_records_some in Hscan as (i' & -> & Hi & Hel & Hfirst).
  change (0 + i')%nat with i'.
  split; [assumption | split; [assumption | split; [assumption | split; reflexivity]]].
Qed.

(** C2. The selector takes the first row, in row order, whose trimmed
    type equals the requested type up to case and whose used flag reads
    [FALSE]; it then issues one write, of [TRUE] to column 1 of sheet row
    position + 2, which sets the used flag of that row and nothing else,
    and returns the overlay text of the row. *)
Theorem find_next_overlay_text_selects_first
    (video_type : string) (w : world) (i : nat) (record : gmap string string) :
  client_raises env (client_calls w) = false ->
  client_raises env (S (client_calls w)) = false ->
  headers (sheet w) !! 0%nat = Some "used?" ->
  first_eligible video_type (rows (sheet w)) i record ->
  let (result, w') := find_next_overlay_text env video_type w in
  result = Some (Py.strip (cell record "overlay text"))
  /\ events_since (length (log w)) w'
     = [GetAllRecords; UpdateCell (i + 2) 1 "TRUE"]
  /\ cell_writes (events_since (length (log w)) w') = [((i + 2)%nat, 1%nat, "TRUE")]
  /\ rows (sheet w') !! i = Some (<["used?" := "TRUE"]> record)
  /\ (forall j, j <> i -> rows (sheet w') !! j = rows (sheet w) !! j).
Proof.
  intros Hget Hput Hlayout (Hi & Hel & Hfirst).
  assert (Hscan : scan_records video_type 0 (rows (sheet w)) = Some (i, record)).
  { apply scan_records_some. exists i.
    split; [reflexivity | split; [assumption | split; assumption]]. }
  rewrite find_next_overlay_text_run. unfold selection_of.
  rewrite Hget, Hscan, Hput. cbn [negb].
  assert (Hev : events_since (length (log w))
                  (World (update_cell (i + 2) 1 "TRUE" (sheet w))
                     (S (S (client_calls w))) (ffmpeg_runs w) (caption_file w)
                     (output_files w)
                     (log w ++ [GetAllRecords; UpdateCell (i + 2) 1 "TRUE"]))
                = [GetAllRecords; UpdateCell (i + 2) 1 "TRUE"]).
  { unfold events_since. cbn [log]. apply drop_app_length. }
  rewrite Hev. cbn [sheet].
  split; [reflexivity | split; [reflexivity | split; [reflexivity | split]]].
  - rewrite (update_cell_rows _ _ "used?") by assumption.
    rewrite list_lookup_alter_eq, Hi. reflexivity.
  - intros j Hj. apply update_cell_other_row. congruence.
Qed.

(** *** Rows that are not eligible stay out *)


Lemma find_next_overlay_text_skips (video_type : string) (w : world) (i : nat)
    (record : gmap string string) :
  rows (sheet w) !! i = Some record ->
  Py.upper (Py.strip (cell record "used?")) <> "FALSE" ->
  exists events,
    log (find_next_overlay_text env video_type w).2 = (log w ++ events)%list
    /\ Forall (fun e => ~ writes_row (i + 2) e) events
    /\ rows (sheet (find_next_overlay_text env video_type w).2) !! i = Some record.
Proof.
  intros Hi Hflag. rewrite find_next_overlay_text_run.
  destruct (selection_of env video_type w) as [| |j r written] eqn:Hsel.
  - exists [GetAllRecords]. cbn. repeat split; [|assumption].
    repeat constructor. intros [].
  - exists [GetAllRecords]. cbn. repeat split; [|assumption].
    repeat constructor. intros [].
  - apply selection_picked in Hsel as (Hj & [_ Hused] & _).
    assert (Hne : j <> i).
    { intros ->. rewrite Hi in Hj. injection Hj as ->. contradiction. }
    exists [GetAllRecords; UpdateCell (j + 2) 1 "TRUE"]. cbn [snd log sheet].
    split; [reflexivity | split].
    + repeat constructor; cbn; [tauto | lia].
    + destruct written; [|assumption].
      rewrite update_cell_other_row by assumption. assumption.
Qed.

Lemma select_each_skips (video_types : list string) (w : world) (i : nat)
    (record : gmap string string) :
  rows (sheet w) !! i = Some record ->
  Py.upper (Py.strip (cell record "used?")) <> "FALSE" ->
  exists events,
    log (select_each env video_types w).2 = (log w ++ events)%list
    /\ Forall (fun e => ~ writes_row (i + 2) e) events
    /\ rows (sheet (select_each env video_types w).2) !! i = Some record.
Proof.
  intros Hi Hflag. revert w Hi.
  induction video_types as [|video_type later IH]; intros w Hi.
  - exists []. cbn. rewrite app_nil_r. repeat split; [constructor | assumption].
  - cbn [select_each]. unfold bind, ret.
    destruct (find_next_overlay_text_skips video_type w i record Hi Hflag)
      as (ev1 & Hlog1 & Hev1 & Hrow1).
    destruct (find_next_overlay_text env video_type w) as [found w1].
    cbn [snd] in Hlog1, Hrow1.
    destruct (IH w1 Hrow1) as (ev2 & Hlog2 & Hev2 & Hrow2).
    destruct (select_each env later w1) as [more w2].
    cbn [snd] in *. exists (ev1 ++ ev2)%list.
    split; [|split; [|assumption]].
    + rewrite Hlog2, Hlog1. now rewrite app_assoc.
    + apply Forall_app; split; assumption.
Qed.

Lemma not_written_since (sheet_row : nat) (w w' : world) (events : list event) :
  log w' = (log w ++ events)%list ->
  Forall (fun e => ~ writes_row sheet_row e) events ->
  forall col value, UpdateCell sheet_row col value ∉ events_since (length (log w)) w'.
Proof.
  intros Hlog Hev col value Hin. unfold events_since in Hin.
  rewrite Hlog, drop_app_length in Hin.
  rewrite Forall_forall in Hev. apply (Hev _ Hin). reflexivity.
Qed.

(** C9. A row whose used flag, trimmed and in upper case, is not [FALSE]
    (an empty cell, [no], [0], ...) is never selected: in any sequence of
    selector calls no write is issued for it, the row is left as it is,
    and it is still not selectable afterwards. *)
Theorem row_without_false_flag_never_selected
    (video_types : list string) (w : world) (i : nat) (record : gmap string string) :
  rows (sheet w) !! i = Some record ->
  Py.upper (Py.strip (cell record "used?")) <> "FALSE" ->
  let (results, w') := select_each env video_types w in
  (forall col value,
      UpdateCell (i + 2) col value ∉ events_since (length (log w)) w')
  /\ rows (sheet w') !! i = Some record
  /\ (forall video_type r,
        scan_records video_type 0 (rows (sheet w')) <> Some (i, r)).
Proof.
  intros Hi Hflag.
  destruct (select_each_skips video_types w i record Hi Hflag)
    as (events & Hlog & Hev & Hrow).
  destruct (select_each env video_types w) as [results w']. cbn [snd] in *.
  split; [|split].
  - now apply (not_written_since _ w w' events).
  - assumption.
  - intros video_type r Hscan.
    apply scan_records_some in Hscan as (i' & Heq & Hr & [_ Hused] & _).
    change (0 + i')%nat with i' in Heq. subst i'. rewrite Hrow in Hr. injection Hr as <-.
    contradiction.
Qed.

(** Cells that do not read as [FALSE]: an empty cell, [no], [0], and a
    cell already marked. *)
Example flags_that_are_not_false :
  Forall (fun value => Py.upper (Py.strip value) <> "FALSE")
         [""; "no"; "0"; " true "; "TRUE"; "F"].
Proof. repeat constructor; vm_compute; discriminate. Qed.

(** C3. Once a call of the selector has consumed a row, writing [TRUE]
    to its used flag, no later call of the selector, for the same or any
    other type, selects that row again, and its flag stays [TRUE]. *)
Theorem consumed_row_never_selected_again
    (video_type text : string) (w w1 : world) (sheet_row col : nat) (value : string)
    (later_types : list string) :
  headers (sheet w) !! 0%nat = Some "used?" ->
  find_next_overlay_text env video_type w = (Some text, w1) ->
  UpdateCell sheet_row col value ∈ events_since (length (log w)) w1 ->
  let (results, w2) := select_each env later_types w1 in
  (forall col' value',
      UpdateCell sheet_row col' value' ∉ events_since (length (log w1)) w2)
  /\ exists record,
       rows (sheet w2) !! (sheet_row - 2)%nat = Some record
       /\ cell record "used?" = "TRUE".
Proof.
  intros Hlayout Hcall Hwritten.
  rewrite find_next_overlay_text_run in Hcall.
  destruct (selection_of env video_type w) as [| |i record written] eqn:Hsel;
    [discriminate | discriminate |].
  destruct written; [|discriminate].
  apply selection_picked in Hsel as (Hi & _).
  injection Hcall as _ <-.
  unfold events_since in Hwritten. cbn [log] in Hwritten.
  rewrite drop_app_length in Hwritten.
  apply elem_of_cons in Hwritten as [Habs|Hwritten]; [discriminate|].
  apply list_elem_of_singleton in Hwritten. injection Hwritten as -> -> ->.
  set (w1 := World _ _ _ _ _ _).
  assert (Hrow : rows (sheet w1) !! i = Some (<["used?" := "TRUE"]> record)).
  { subst w1. cbn [sheet]. rewrite (update_cell_rows _ _ "used?") by assumption.
    rewrite list_lookup_alter_eq, Hi. reflexivity. }
  assert (Hcell : cell (<["used?" := "TRUE"]> record) "used?" = "TRUE").
  { unfold cell. now rewrite lookup_insert_eq. }
  assert (Hflag : Py.upper (Py.strip (cell (<["used?" := "TRUE"]> record) "used?"))
                  <> "FALSE").
  { rewrite Hcell. discriminate. }
  destruct (select_each_skips later_types w1 i _ Hrow Hflag)
    as (events & Hlog & Hev & Hrow2).
  destruct (select_each env later_types w1) as [results w2]. cbn [snd] in *.
  split.
  - now apply (not_written_since _ w1 w2 events).
  - exists (<["used?" := "TRUE"]> record).
    replace (i + 2 - 2)%nat with i by lia. split; assumption.
Qed.

End Selector.

(** *** The selector on the sample sheet *)

Lemma sample_free_row_first :
  first_eligible "Sad" (rows Sample.captions) 1 Sample.free_row.
Proof.
  split; [reflexivity | split; [split; vm_compute; reflexivity|]].
  intros i' record' Hlt Hrow.
  destruct i' as [|i']; [|exfalso; lia].
  injection Hrow as <-. intros [_ Hused]. vm_compute in Hused. discriminate.
Defined.

Lemma find_next_overlay_text_selects_first_witness :
  (find_next_overlay_text Sample.all_succeed "Sad" (Sample.start Sample.captions)).1
  = Some "Miss you".
Proof.
  pose proof (find_next_overlay_text_selects_first Sample.all_succeed "Sad"
                (Sample.start Sample.captions) 1 Sample.free_row
                eq_refl eq_refl eq_refl sample_free_row_first) as H.
  destruct (find_next_overlay_text Sample.all_succeed "Sad"
              (Sample.start Sample.captions)) as [result w'].
  destruct H as [-> _]. reflexivity.
Defined.

Lemma sample_blank_flag :
  Py.upper (Py.strip (cell Sample.blank_row "used?")) <> "FALSE".
Proof. vm_compute. discriminate. Defined.

Lemma row_without_false_flag_never_selected_witness :
  rows (sheet (select_each Sample.all_succeed ["Sad"; "Sad"; "Sad"]
                 (Sample.start Sample.captions)).2) !! 2%nat
  = Some Sample.blank_row.
Proof.
  pose proof (row_without_false_flag_never_selected Sample.all_succeed
                ["Sad"; "Sad"; "Sad"] (Sample.start Sample.captions) 2
                Sample.blank_row eq_refl sample_blank_flag) as H.
  destruct (select_each Sample.all_succeed ["Sad"; "Sad"; "Sad"]
              (Sample.start Sample.captions)) as [results w'].
  exact (proj1 (proj2 H)).
Defined.

Lemma consumed_row_never_selected_again_witness :
  exists record,
    rows (sheet (select_each Sample.all_succeed ["Sad"; "Sad"]
                   Sample.after_first_pick).2) !! 1%nat = Some record
    /\ cell record "used?" = "TRUE".
Proof.
  assert (Hcall : find_next_overlay_text Sample.all_succeed "Sad"
                    (Sample.start Sample.captions)
                  = (Some "Miss you", Sample.after_first_pick))
    by (vm_compute; reflexivity).
  assert (Hwritten : UpdateCell 3 1 "TRUE"
                     ∈ events_since (length (log (Sample.start Sample.captions)))
                         Sample.after_first_pick).
  { change (events_since (length (log (Sample.start Sample.captions)))
              Sample.after_first_pick)
      with [GetAllRecords; UpdateCell 3 1 "TRUE"].
    apply list_elem_of_further, list_elem_of_here. }
  pose proof (consumed_row_never_selected_again Sample.all_succeed "Sad" "Miss you"
                (Sample.start Sample.captions) Sample.after_first_pick 3 1 "TRUE"
                ["Sad"; "Sad"] eq_refl Hcall Hwritten) as H.
  destruct (select_each Sample.all_succeed ["Sad"; "Sad"] Sample.after_first_pick)
    as [results w2].
  exact (proj2 H).
Defined.

(** The write goes to column 1 whatever its header is.  On a sheet whose
    first column is [type], which passes the check of the format, the
    selector overwrites the type of the row it picks and leaves the used
    flag as it was. *)
Remark marking_relies_on_column_one :
  let w := (find_next_overlay_text Sample.all_succeed "Sad"
              (Sample.start Sample.reordered)).2 in
  check_sheet_format Sample.reordered = true
  /\ exists record,
       rows (sheet w) !! 1%nat = Some record
       /\ cell record "used?" = "false"
       /\ cell record "type" = "TRUE".
Proof.
  cbv zeta. split; [vm_compute; reflexivity|].
  eexists. split; [reflexivity | split; reflexivity].
Qed.

(** ** Render invoker *)

Section Render.

Context (env : environment).

Ltac run_render :=
  unfold edit_video_with_text, edit_video_fallback, edit_video_no_text, bind, ret,
    write_caption, run_ffmpeg, remove_caption;
  cbn [sheet client_calls ffmpeg_runs caption_file output_files log fst snd].

Ltac step_render :=
  cbn [sheet client_calls ffmpeg_runs caption_file output_files log fst snd
       Z.eqb Pos.eqb];
  rewrite <- ?app_assoc; cbn [app].

Lemma events_since_app (w : world) (w' : world) (events : list event) :
  log w' = (log w ++ events)%list -> events_since (length (log w)) w' = events.
Proof. intros H. unfold events_since. rewrite H. apply drop_app_length. Qed.

(** The events of one pass through the cascade, by the way the three
    runs end. *)
Lemma edit_video_with_text_events
    (video_file overlay_text : string) (d : Q) (w : world) :
  let caption := wrap_text_for_margins overlay_text in
  let full := FfmpegCmd Full start_trim (input_path video_file) (Some caption)
                (font_param env) d (output_path video_file) in
  let fallback := FfmpegCmd Fallback start_trim (input_path video_file) (Some caption)
                    None d (output_path video_file) in
  let no_text := FfmpegCmd NoText start_trim (input_path video_file) None
                   None d (output_path video_file) in
  let tier1 := [WriteCaption caption; Ffmpeg full; RemoveCaption] in
  let tier2 := [WriteCaption caption; Ffmpeg fallback; RemoveCaption] in
  let run := edit_video_with_text env video_file overlay_text d w in
  sheet run.2 = sheet w /\ client_calls run.2 = client_calls w
  /\ caption_file run.2 = None
  /\ match ffmpeg_result env (ffmpeg_runs w) with
     | Exited 0 =>
         run.1 = true /\ log run.2 = (log w ++ tier1)%list
         /\ output_files run.2 = (output_files w ++ [output_path video_file])%list
     | Raised =>
         run.1 = false /\ log run.2 = (log w ++ tier1)%list
         /\ output_files run.2 = output_files w
     | Exited _ =>
         match ffmpeg_result env (S (ffmpeg_runs w)) with
         | Exited 0 =>
             run.1 = true /\ log run.2 = (log w ++ tier1 ++ tier2)%list
             /\ output_files run.2 = (output_files w ++ [output_path video_file])%list
         | Raised =>
             run.1 = false /\ log run.2 = (log w ++ tier1 ++ tier2)%list
             /\ output_files run.2 = output_files w
         | Exited _ =>
             log run.2 = (log w ++ tier1 ++ tier2 ++ [Ffmpeg no_text])%list
             /\ match ffmpeg_result env (S (S (ffmpeg_runs w))) with
                | Exited 0 =>
                    run.1 = true
                    /\ output_files run.2
                       = (output_files w ++ [output_path video_file])%list
                | _ => run.1 = false /\ output_files run.2 = output_files w
                end
         end
     end.
Proof.
  destruct w as [sh calls runs cap outs lg]. run_render.
  destruct (ffmpeg_result env runs) as [[|p1|p1]|]; step_render;
    try (repeat split; reflexivity);
    (destruct (ffmpeg_result env (S runs)) as [[|p2|p2]|]; step_render;
     try (repeat split; reflexivity));
    (destruct (ffmpeg_result env (S (S runs))) as [[|p3|p3]|]; step_render;
     repeat split; reflexivity).
Qed.


Ltac elem_false H :=
  repeat (apply elem_of_cons in H as [H|H]; [discriminate H|]); inversion H.

Ltac elem_true := repeat first [apply list_elem_of_here | apply list_elem_of_further].

Ltac elem_cases H :=
  repeat (apply elem_of_cons in H as [H|H]; [subst|]); [..|inversion H].

(** C6. The cascade is entered at the full render and only moves down:
    the fallback tier runs exactly when the full render exits with a
    non-zero status, on the same video, the same overlay text and the same
    trimmed duration, with the built-in font; the no-text tier runs exactly
    when the fallback tier, having run, exits with a non-zero status.  No
    call of the spreadsheet client is made and the sheet is left as it is. *)
Theorem render_cascade (video_file overlay_text : string) (d : Q) (w : world) :
  let (ok, w') := edit_video_with_text env video_file overlay_text d w in
  let events := events_since (length (log w)) w' in
  let first := ffmpeg_result env (ffmpeg_runs w) in
  let second := ffmpeg_result env (S (ffmpeg_runs w)) in
  tiers_run events `prefix_of` [Full; Fallback; NoText]
  /\ Full ∈ tiers_run events
  /\ (Fallback ∈ tiers_run events <-> exits_nonzero first)
  /\ (NoText ∈ tiers_run events <-> exits_nonzero first /\ exits_nonzero second)
  /\ (forall cmd, cmd ∈ ffmpeg_cmds events ->
        cmd_input cmd = input_path video_file
        /\ cmd_duration cmd = d
        /\ cmd_output cmd = output_path video_file
        /\ cmd_caption cmd
           = match cmd_tier cmd with
             | NoText => None
             | _ => Some (wrap_text_for_margins overlay_text)
             end
        /\ (cmd_tier cmd = Fallback -> cmd_font cmd = None))
  /\ forallb (fun e => negb (is_client_event e)) events = true
  /\ sheet w' = sheet w.
Proof.
  pose proof (edit_video_with_text_events video_file overlay_text d w) as H.
  cbv zeta in H.
  destruct (edit_video_with_text env video_file overlay_text d w) as [ok w'].
  cbn [fst snd] in H. destruct H as (Hsheet & _ & _ & H).
  set (caption := wrap_text_for_margins overlay_text) in *.
  set (input := input_path video_file) in *.
  set (output := output_path video_file) in *.
  clearbody caption input output.
  assert (Hnz : forall p, exits_nonzero (Exited (Z.pos p))) by (intros p; discriminate).
  assert (Hnn : forall p, exits_nonzero (Exited (Z.neg p))) by (intros p; discriminate).
  assert (Hz : ~ exits_nonzero (Exited 0)) by (intros Hq; now apply Hq).
  destruct (ffmpeg_result env (ffmpeg_runs w)) as [[|p1|p1]|];
    try destruct (ffmpeg_result env (S (ffmpeg_runs w))) as [[|p2|p2]|];
    repeat match type of H with _ /\ _ => destruct H as [? H] end;
    match goal with
    | Hlog : log w' = _ |- _ => rewrite (events_since_app w w' _ Hlog)
    end;
    cbn [app tiers_run ffmpeg_cmds omap list_omap map cmd_tier forallb is_client_event negb andb];
    (split; [|split; [|split; [|split; [|split; [|split]]]]]);
    try assumption; try reflexivity; try elem_true.
  all: try match goal with
       | |- _ `prefix_of` _ => solve [ now exists [Fallback; NoText]
                                    | now exists [NoText] | now exists [] ]
       end.
  all: try match goal with
       | |- forall cmd, _ ∈ _ -> _ =>
           intros cmd Hcmd; elem_cases Hcmd;
           cbn [cmd_input cmd_duration cmd_output cmd_caption cmd_tier cmd_font];
           repeat split; try reflexivity; intros; try discriminate; reflexivity
       end.
  all: split; intros Hq;
    try solve [ apply Hnz | apply Hnn | elem_true | elem_false Hq | exfalso; tauto | contradiction
              | split; auto | destruct Hq; contradiction | destruct Hq; tauto ].
Qed.

End Render.

(** ** Batch driver *)

Section Driver.

Context (env : environment) (valid_types : list string).

Lemma string_app_inv_head (s a b : string) : s +:+ a = s +:+ b -> a = b.
Proof. induction s as [|c s IH]; cbn; [auto | intros [= H]; auto]. Qed.

Lemma truthy_some (o : option string) :
  Py.truthy o = true -> exists s, o = Some s /\ s <> "".
Proof.
  destruct o as [[|c s]|]; try discriminate. intros _. exists (String c s).
  split; [reflexivity | discriminate].
Qed.

Lemma truthy_nonempty (s : string) : s <> "" -> Py.truthy (Some s) = true.
Proof. destruct s; [congruence | reflexivity]. Qed.

Lemma process_single_video_no_type (video_file : string) (w : world) :
  Py.truthy (extract_type_from_filename valid_types (PurePath.stem video_file)) = false ->
  process_single_video env valid_types video_file w = (false, w).
Proof. intros H. unfold process_single_video. rewrite H. reflexivity. Qed.

(** The ways through [process_single_video] once the type is inferred. *)
Lemma process_single_video_run (video_file video_type : string) (w : world) :
  extract_type_from_filename valid_types (PurePath.stem video_file) = Some video_type ->
  video_type <> "" ->
  process_single_video env valid_types video_file w =
  match selection_of env video_type w with
  | ClientDown | NothingLeft => (false, after_read w)
  | Picked i record written =>
      let overlay_text := Py.strip (cell record "overlay text") in
      if written && Py.truthy (Some overlay_text) then
        edit_video_with_text env video_file overlay_text
          (calculate_trimmed_duration (probed_duration env (input_path video_file)))
          (after_probe video_file (after_pick i true w))
      else (false, after_pick i written w)
  end.
Proof.
  intros Htype Hne. unfold process_single_video.
  rewrite Htype, (truthy_nonempty _ Hne). cbn [negb].
  unfold bind at 1. rewrite find_next_overlay_text_run.
  change (default "" (Some video_type)) with video_type.
  destruct (selection_of env video_type w) as [| |i record written]; try reflexivity.
  destruct written; cbn [andb]; [|reflexivity].
  cbv zeta.
  destruct (Py.truthy (Some (Py.strip (cell record "overlay text")))); reflexivity.
Qed.


(** What every pass through the cascade has in common. *)
Lemma edit_video_with_text_summary
    (video_file overlay_text : string) (d : Q) (w : world) :
  let run := edit_video_with_text env video_file overlay_text d w in
  exists events,
    log run.2 = (log w ++ events)%list
    /\ sheet run.2 = sheet w
    /\ cell_writes events = []
    /\ Forall (fun cmd => cmd_output cmd = output_path video_file) (ffmpeg_cmds events)
    /\ output_files run.2
       = (if run.1 then output_files w ++ [output_path video_file] else output_files w)%list.
Proof.
  pose proof (edit_video_with_text_events env video_file overlay_text d w) as H.
  cbv zeta in *.
  destruct (edit_video_with_text env video_file overlay_text d w) as [ok w'].
  cbn [fst snd] in *. destruct H as (Hsheet & _ & _ & H).
  destruct (ffmpeg_result env (ffmpeg_runs w)) as [[|p1|p1]|];
    try destruct (ffmpeg_result env (S (ffmpeg_runs w))) as [[|p2|p2]|];
    try destruct (ffmpeg_result env (S (S (ffmpeg_runs w)))) as [[|p3|p3]|];
    repeat match type of H with _ /\ _ => destruct H as [? H] end; subst ok;
    (eexists; split; [eassumption|]);
    (split; [assumption|]); (split; [reflexivity|]);
    (split; [cbn; repeat constructor | assumption]).
Qed.

Lemma process_all_keeps_failed
    (video_files successful failed : list string) (w : world) (name : string) :
  name ∈ failed ->
  name ∈ (process_all env valid_types video_files successful failed w).1.2.
Proof.
  revert successful failed w.
  induction video_files as [|video_file later IH]; intros successful failed w Hin.
  - exact Hin.
  - cbn [process_all]. unfold bind.
    destruct (process_single_video env valid_types video_file w) as [[|] w'].
    + now apply IH.
    + apply IH. apply elem_of_app. now left.
Qed.

Lemma process_all_records_failure
    (video_file : string) (later successful failed : list string) (w : world) :
  (process_single_video env valid_types video_file w).1 = false ->
  video_file
  ∈ (process_all env valid_types (video_file :: later) successful failed w).1.2.
Proof.
  intros Hfail. cbn [process_all]. unfold bind.
  destruct (process_single_video env valid_types video_file w) as [ok w'].
  cbn [fst] in Hfail. subst ok.
  apply process_all_keeps_failed. apply elem_of_app. right. apply list_elem_of_here.
Qed.

Lemma selection_without_eligible (video_type : string) (w : world) :
  Forall (fun record => ~ eligible video_type record) (rows (sheet w)) ->
  selection_of env video_type w = ClientDown
  \/ selection_of env video_type w = NothingLeft.
Proof.
  intros Hnone. unfold selection_of.
  destruct (client_raises env (client_calls w)); [now left|].
  apply (scan_records_none _ 0%nat) in Hnone. rewrite Hnone. now right.
Qed.

Lemma events_since_same (w : world) : events_since (length (log w)) w = [].
Proof. unfold events_since. apply drop_all. Qed.

Lemma events_since_after_read (w : world) :
  events_since (length (log w)) (after_read w) = [GetAllRecords].
Proof. apply events_since_app. reflexivity. Qed.

(** C4. When no unused row matches the inferred type, the selector returns
    [None] and writes no cell, so the sheet is as before; the driver
    reports the video as failed, runs no render and writes no output
    file, and the batch loop puts the name on the list of failures. *)
Theorem no_caption_no_mutation
    (video_file video_type : string) (w : world) (later successful failed : list string) :
  extract_type_from_filename valid_types (PurePath.stem video_file) = Some video_type ->
  Forall (fun record => ~ eligible video_type record) (rows (sheet w)) ->
  (let (found, w') := find_next_overlay_text env video_type w in
   found = None /\ sheet w' = sheet w
   /\ cell_writes (events_since (length (log w)) w') = [])
  /\ (let (ok, w') := process_single_video env valid_types video_file w in
      ok = false /\ sheet w' = sheet w
      /\ cell_writes (events_since (length (log w)) w') = []
      /\ ffmpeg_cmds (events_since (length (log w)) w') = []
      /\ output_files w' = output_files w)
  /\ (let (lists, _) :=
        process_all env valid_types (video_file :: later) successful failed w in
      video_file ∈ lists.2).
Proof.
  intros Htype Hnone.
  assert (Hsel : selection_of env video_type w = ClientDown
                 \/ selection_of env video_type w = NothingLeft)
    by now apply selection_without_eligible.
  assert (Hfind : find_next_overlay_text env video_type w = (None, after_read w)).
  { rewrite find_next_overlay_text_run. destruct Hsel as [-> | ->]; reflexivity. }
  assert (Hrun : process_single_video env valid_types video_file w = (false, w)
                 \/ process_single_video env valid_types video_file w
                    = (false, after_read w)).
  { destruct (String.eqb_spec video_type "") as [-> | Hne].
    - left. apply process_single_video_no_type. now rewrite Htype.
    - right. rewrite (process_single_video_run _ video_type) by assumption.
      destruct Hsel as [-> | ->]; reflexivity. }
  split; [|split].
  - rewrite Hfind, events_since_after_read. repeat split; reflexivity.
  - destruct Hrun as [-> | ->].
    + rewrite events_since_same. repeat split; reflexivity.
    + rewrite events_since_after_read. repeat split; reflexivity.
  - pose proof (process_all_records_failure video_file later successful failed w) as H.
    destruct (process_all env valid_types (video_file :: later) successful failed w)
      as [lists w'].
    apply H. destruct Hrun as [-> | ->]; reflexivity.
Qed.


(** Either the driver gives up before any render, or it reaches the render
    tiers. *)
Lemma process_single_video_shape (video_file : string) (w : world) :
  let run := process_single_video env valid_types video_file w in
  (run.1 = false /\ ffmpeg_cmds (events_since (length (log w)) run.2) = [])
  \/ exists i record rest, reaches_render env valid_types video_file w i record rest.
Proof.
  cbv zeta.
  destruct (Py.truthy (extract_type_from_filename valid_types (PurePath.stem video_file)))
    eqn:Htype.
  2:{ left. rewrite process_single_video_no_type by assumption.
      cbn [fst snd]. now rewrite events_since_same. }
  apply truthy_some in Htype as (video_type & Htype & Hne).
  pose proof (process_single_video_run video_file video_type w Htype Hne) as Hrun.
  destruct (selection_of env video_type w) as [| |i record written] eqn:Hsel.
  - left. rewrite Hrun. cbn [fst snd]. now rewrite events_since_after_read.
  - left. rewrite Hrun. cbn [fst snd]. now rewrite events_since_after_read.
  - cbv zeta in Hrun.
    destruct (written && Py.truthy (Some (Py.strip (cell record "overlay text"))))
      eqn:Hgo.
    + apply andb_true_iff in Hgo as [-> _]. right.
      pose proof (edit_video_with_text_summary video_file
                    (Py.strip (cell record "overlay text"))
                    (calculate_trimmed_duration (probed_duration env (input_path video_file)))
                    (after_probe video_file (after_pick i true w))) as Hsum.
      cbv zeta in Hsum. rewrite <- Hrun in Hsum.
      destruct Hsum as (rest & Hlog & Hsheet & Hwrites & Hout & Hfiles).
      exists i, record, rest, video_type.
      split; [assumption | split; [exact Hsel|]]. cbv zeta.
      split; [|split; [exact Hsheet | split; [exact Hwrites | split;
        [exact Hout | exact Hfiles]]]].
      rewrite Hlog. cbn [after_probe after_pick log].
      rewrite <- !app_assoc. reflexivity.
    + left. rewrite Hrun. cbn [fst snd]. split; [reflexivity|].
      rewrite (events_since_app w (after_pick i written w)
                 [GetAllRecords; UpdateCell (i + 2) 1 "TRUE"]); reflexivity.
Qed.

(** C8, as the program has it.  The output of a video that was processed
    with success is named after the stem of the input with [_edited.mp4]
    appended, whatever the extension of the input; every render of the
    video is given that output path.  The name keeps the extension of the
    input exactly when that extension is [.mp4]. *)
Theorem output_is_stem_edited_mp4 (video_file : string) (w : world) :
  let run := process_single_video env valid_types video_file w in
  let name := "output-videos/" +:+ PurePath.stem video_file +:+ "_edited.mp4" in
  run.1 = true ->
  output_files run.2 = (output_files w ++ [name])%list
  /\ Forall (fun cmd => cmd_output cmd = name)
       (ffmpeg_cmds (events_since (length (log w)) run.2))
  /\ (name = output_keeping_extension video_file
      <-> PurePath.suffix video_file = ".mp4").
Proof.
  cbv zeta. intros Hok.
  destruct (process_single_video_shape video_file w) as [[Hfail _] | Hrender].
  { rewrite Hok in Hfail. discriminate. }
  destruct Hrender as (i & record & rest & video_type & _ & _ & Hlog & _ & _ & Hout & Hfiles).
  rewrite Hok in Hfiles.
  split; [exact Hfiles | split].
  - rewrite (events_since_app _ _ _ Hlog). exact Hout.
  - unfold output_keeping_extension. split.
    + intros Heq. do 2 apply string_app_inv_head in Heq.
      change "_edited.mp4" with ("_edited" +:+ ".mp4") in Heq.
      apply string_app_inv_head in Heq. now symmetry.
    + intros ->. reflexivity.
Qed.


(** C10. The write that marks the caption row comes before the probe and
    before every render, and nothing takes it back: when all three tiers
    have run and the video is reported as failed, the used flag of the
    selected row is [TRUE] in the sheet, it is still [TRUE] after any later
    calls of the selector, no output file was written, and the batch loop
    lists the video as failed. *)
Theorem failed_render_consumes_caption (video_file : string) (w : world)
    (later successful failed later_types : list string) :
  let run := process_single_video env valid_types video_file w in
  let events := events_since (length (log w)) run.2 in
  headers (sheet w) !! 0%nat = Some "used?" ->
  tiers_run events = [Full; Fallback; NoText] ->
  run.1 = false ->
  exists i record rest,
    rows (sheet w) !! i = Some record
    /\ events = GetAllRecords :: UpdateCell (i + 2) 1 "TRUE"
                 :: Ffprobe (input_path video_file) :: rest
    /\ cell_writes rest = []
    /\ tiers_run rest = [Full; Fallback; NoText]
    /\ rows (sheet run.2) !! i = Some (<["used?" := "TRUE"]> record)
    /\ rows (sheet (select_each env later_types run.2).2) !! i
       = Some (<["used?" := "TRUE"]> record)
    /\ output_files run.2 = output_files w
    /\ video_file
       ∈ (process_all env valid_types (video_file :: later) successful failed w).1.2.
Proof.
  cbv zeta. intros Hlayout Htiers Hfail.
  destruct (process_single_video_shape video_file w) as [[_ Hnone] | Hrender].
  { unfold tiers_run in Htiers. rewrite Hnone in Htiers. discriminate. }
  destruct Hrender
    as (i & record & rest & video_type & _ & Hsel & Hlog & Hsheet & Hwrites & _ & Hfiles).
  apply selection_picked in Hsel as (Hi & _).
  rewrite Hfail in Hfiles.
  rewrite (events_since_app _ _ _ Hlog) in Htiers |- *.
  assert (Hrow : rows (sheet (process_single_video env valid_types video_file w).2) !! i
                 = Some (<["used?" := "TRUE"]> record)).
  { rewrite Hsheet, (update_cell_rows _ _ "used?") by assumption.
    rewrite list_lookup_alter_eq, Hi. reflexivity. }
  exists i, record, rest.
  split; [exact Hi | split; [reflexivity | split; [exact Hwrites | split;
    [exact Htiers | split; [exact Hrow | split; [| split; [exact Hfiles|]]]]]]].
  - assert (Hflag : Py.upper (Py.strip (cell (<["used?" := "TRUE"]> record) "used?"))
                    <> "FALSE").
    { unfold cell. rewrite lookup_insert_eq. discriminate. }
    destruct (select_each_skips env later_types _ i _ Hrow Hflag) as (_ & _ & _ & H).
    exact H.
  - now apply process_all_records_failure.
Qed.

End Driver.

(** *** The driver on the sample sheet *)

Lemma sample_no_crying_row :
  Forall (fun record => ~ eligible "Crying" record) (rows Sample.captions).
Proof.
  repeat constructor; intros [Htype _]; vm_compute in Htype; discriminate.
Defined.

Lemma no_caption_no_mutation_witness :
  (process_single_video Sample.all_succeed vocabulary "crying_02.mp4"
     (Sample.start Sample.captions)).1 = false.
Proof.
  pose proof (no_caption_no_mutation Sample.all_succeed vocabulary "crying_02.mp4"
                "Crying" (Sample.start Sample.captions) [] [] []
                eq_refl sample_no_crying_row) as (_ & H & _).
  destruct (process_single_video Sample.all_succeed vocabulary "crying_02.mp4"
              (Sample.start Sample.captions)) as [ok w'].
  exact (proj1 H).
Defined.

(** C8, as claimed, fails: an [.avi] input gives an [.mp4] output. *)
Lemma output_extension_counterexample :
  ~ output_keeps_extension Sample.all_succeed vocabulary "sad_01.avi"
      (Sample.start Sample.captions).
Proof.
  unfold output_keeps_extension. cbv zeta. intros H.
  specialize (H eq_refl eq_refl). vm_compute in H.
  apply list_elem_of_singleton in H. discriminate.
Qed.

Lemma output_is_stem_edited_mp4_witness :
  output_files (process_single_video Sample.all_succeed vocabulary "sad_01.avi"
                  (Sample.start Sample.captions)).2
  = ["output-videos/sad_01_edited.mp4"].
Proof.
  exact (proj1 (output_is_stem_edited_mp4 Sample.all_succeed vocabulary "sad_01.avi"
                  (Sample.start Sample.captions) eq_refl)).
Defined.

Lemma failed_render_consumes_caption_witness :
  "sad_01.mp4"
  ∈ (process_all Sample.all_fail vocabulary ["sad_01.mp4"] [] []
       (Sample.start Sample.captions)).1.2.
Proof.
  destruct (failed_render_consumes_caption Sample.all_fail vocabulary "sad_01.mp4"
              (Sample.start Sample.captions) [] [] [] [] eq_refl eq_refl eq_refl)
    as (i & record & rest & H).
  exact (proj2 (proj2 (proj2 (proj2 (proj2 (proj2 (proj2 H))))))).
Defined.

(** The scenario of one [sad] video of ten seconds and one unused [sad]
    row: the video is processed, the output is [sad_01_edited.mp4], the
    row is marked and the render is asked for 9.25 seconds. *)
Example sad_video_end_to_end :
  let run := process_single_video Sample.all_succeed vocabulary "sad_01.mp4"
               (Sample.start Sample.captions) in
  run.1 = true
  /\ output_files run.2 = ["output-videos/sad_01_edited.mp4"]
  /\ (exists record, rows (sheet run.2) !! 1%nat = Some record
                     /\ cell record "used?" = "TRUE")
  /\ Forall (fun cmd => (cmd_duration cmd == 9.25)%Q
                        /\ cmd_caption cmd = Some "Miss you")
       (ffmpeg_cmds (log run.2)).
Proof.
  cbv zeta. split; [reflexivity | split; [reflexivity | split]].
  - eexists. split; reflexivity.
  - repeat constructor.
Qed.

(** ** Text layout *)

Section WrapChunks.

Import TextWrap.

Context (width : nat).

Lemma take_fitting_spec (cur_len : nat) (chunks : list (list ascii)) :
  let (line, rest) := take_fitting width cur_len chunks in
  chunks = (line ++ rest)%list
  /\ (line <> [] -> cur_len + line_length line <= width)
  /\ match rest with
     | c :: _ => width < cur_len + line_length line + length c
     | [] => True
     end.
Proof.
  revert cur_len. induction chunks as [|c rest IH]; intros cur_len; cbn [take_fitting].
  - repeat split. congruence.
  - destruct (cur_len + length c <=? width)%nat eqn:Hfit.
    + specialize (IH (cur_len + length c)).
      destruct (take_fitting width (cur_len + length c) rest) as [line rest'].
      destruct IH as (-> & Hlen & Hrest). apply Nat.leb_le in Hfit.
      unfold line_length in *. cbn [concat app]. rewrite length_app.
      split; [reflexivity | split].
      * intros _. destruct line as [|c' line]; [cbn; lia|].
        specialize (Hlen ltac:(discriminate)). lia.
      * destruct rest' as [|c' rest']; [exact I|]. lia.
    + apply Nat.leb_gt in Hfit. unfold line_length. cbn [concat app length].
      split; [reflexivity | split; [congruence | lia]].
Qed.

Lemma handle_long_word_spec (cur_line chunks : list (list ascii)) :
  let (cur_line', chunks') := handle_long_word width cur_line chunks in
  (cur_line' = cur_line /\ chunks' = chunks
   /\ match chunks with
      | c :: _ => cur_line <> [] \/ length c <= width
      | [] => True
      end)
  \/ exists c, cur_line = [] /\ cur_line' = [c] /\ chunks = c :: chunks'
               /\ width < length c.
Proof.
  unfold handle_long_word. destruct chunks as [|c rest]; [now left|].
  destruct (width <? length c)%nat eqn:Hlong.
  - apply Nat.ltb_lt in Hlong. destruct cur_line as [|l cur_line].
    + right. exists c. auto.
    + left. repeat split. left. discriminate.
  - apply Nat.ltb_ge in Hlong. left. repeat split. now right.
Qed.

Lemma drop_trailing_blank_spec (cur_line : list (list ascii)) :
  exists back,
    cur_line = (drop_trailing_blank cur_line ++ back)%list
    /\ Forall (fun c => is_blank c = true) back.
Proof.
  unfold drop_trailing_blank.
  destruct (last cur_line) as [c|] eqn:Hlast.
  - destruct (is_blank c) eqn:Hblank.
    + exists [c]. split; [|repeat constructor; assumption].
      apply last_Some in Hlast as [front ->].
      now rewrite removelast_last.
    + exists []. now rewrite app_nil_r.
  - exists []. now rewrite app_nil_r.
Qed.

Lemma drop_trailing_blank_length (cur_line : list (list ascii)) :
  line_length (drop_trailing_blank cur_line) <= line_length cur_line.
Proof.
  destruct (drop_trailing_blank_spec cur_line) as (back & Heq & _).
  rewrite Heq at 2. unfold line_length. rewrite concat_app, length_app. lia.
Qed.

Lemma drop_trailing_blank_single (c : list ascii) :
  drop_trailing_blank [c] = [c] \/ drop_trailing_blank [c] = [].
Proof. unfold drop_trailing_blank. cbn. destruct (is_blank c); auto. Qed.

(** One turn of the outer loop: the line is a run of consecutive chunks,
    with blank chunks dropped in front of it and behind it; at least one
    chunk is used up; the line fits the width unless it is one long
    chunk. *)
Lemma next_line_spec (started : bool) (chunks : list (list ascii)) :
  let (cur_line, rest) := next_line width started chunks in
  exists front back,
    chunks = (front ++ cur_line ++ back ++ rest)%list
    /\ Forall (fun c => is_blank c = true) front
    /\ Forall (fun c => is_blank c = true) back
    /\ (chunks <> [] -> length rest < length chunks)
    /\ (line_length cur_line <= width
        \/ exists c, cur_line = [c] /\ width < length c).
Proof.
  unfold next_line.
  set (chunks1 := match chunks with
                  | c :: rest => if is_blank c && started then rest else chunks
                  | [] => chunks
                  end).
  assert (Hfront : exists front, chunks = (front ++ chunks1)%list
                     /\ Forall (fun c => is_blank c = true) front
                     /\ length front <= 1
                     /\ (chunks1 = [] -> chunks <> [] -> front <> [])).
  { subst chunks1. destruct chunks as [|c rest].
    - exists []. repeat split; auto.
    - destruct (is_blank c && started) eqn:Hdrop.
      + apply andb_true_iff in Hdrop as [Hblank _].
        exists [c]. repeat split; auto; try congruence.
      + exists []. repeat split; auto; try congruence. }
  destruct Hfront as (front & Hchunks & Hblank & Hshort & Hused).
  clearbody chunks1.
  pose proof (take_fitting_spec 0 chunks1) as Htake.
  destruct (take_fitting width 0 chunks1) as [cur_line chunks2].
  destruct Htake as (Hsplit & Hfit & Hnext).
  pose proof (handle_long_word_spec cur_line chunks2) as Hlong.
  destruct (handle_long_word width cur_line chunks2) as [cur_line' chunks3].
  rename Hlong into Hcase.
  destruct (drop_trailing_blank_spec cur_line') as (back & Hback & Hbackblank).
  exists front, back.
  split; [|split; [assumption | split; [assumption | split]]].
  - rewrite Hchunks, Hsplit.
    destruct Hcase as [(-> & -> & _) | (c & -> & -> & -> & Hc)].
    + rewrite Hback at 1. now rewrite <- !app_assoc.
    + cbn [app]. f_equal. change (c :: chunks3) with ([c] ++ chunks3)%list.
      rewrite Hback at 1. now rewrite <- app_assoc.
  - intros Hne. rewrite Hchunks, length_app.
    destruct Hcase as [(-> & -> & Hhead) | (c & -> & -> & -> & Hc)].
    + rewrite Hsplit, length_app.
      destruct cur_line as [|l cur_line]; [|cbn; lia].
      destruct chunks2 as [|c chunks2].
      * cbn in Hsplit. specialize (Hused Hsplit Hne).
        destruct front; [congruence | cbn; lia].
      * exfalso. unfold line_length in Hnext. cbn in Hnext.
        destruct Hhead as [Hhead | Hhead]; [congruence | lia].
    + rewrite Hsplit. cbn. lia.
  - destruct Hcase as [(-> & -> & _) | (c & -> & -> & -> & Hc)].
    + left. destruct cur_line as [|l cur_line]; [cbn; lia|].
      specialize (Hfit ltac:(discriminate)).
      pose proof (drop_trailing_blank_length (l :: cur_line)). lia.
    + destruct (drop_trailing_blank_single c) as [-> | ->].
      * right. exists c. auto.
      * left. cbn. lia.
Qed.

Lemma segmented_drop_all (front chunks : list (list ascii))
    (groups : list (list (list ascii))) :
  Forall (fun c => is_blank c = true) front ->
  segmented chunks groups -> segmented (front ++ chunks) groups.
Proof.
  induction 1 as [|c front Hc _ IH]; intros Hseg; [exact Hseg|].
  cbn [app]. apply segmented_drop; [exact Hc | exact (IH Hseg)].
Qed.

(** The outer loop ends within the fuel, and its lines are the chunks laid
    out in groups that fit. *)
Lemma wrap_loop_spec (fuel : nat) (chunks lines : list (list ascii)) :
  length chunks <= fuel ->
  exists groups : list (list (list ascii)),
    wrap_loop fuel width chunks lines = Some (lines ++ map (@concat ascii) groups)%list
    /\ segmented chunks groups
    /\ Forall (fits width) groups.
Proof.
  revert chunks lines. induction fuel as [|fuel IH]; intros chunks lines Hfuel.
  - destruct chunks; [|cbn in Hfuel; lia].
    exists []. cbn. rewrite app_nil_r. repeat split; constructor.
  - destruct chunks as [|c chunks].
    { exists []. cbn. rewrite app_nil_r. repeat split; constructor. }
    cbn [wrap_loop].
    pose proof (next_line_spec (started lines) (c :: chunks)) as H.
    destruct (next_line width (started lines) (c :: chunks)) as [cur_line rest].
    destruct H as (front & back & Heq & Hfront & Hback & Hless & Hfit).
    specialize (Hless ltac:(discriminate)).
    destruct (IH rest (add_line lines cur_line)) as (groups & Hrun & Hseg & Hfits).
    { cbn in Hfuel, Hless. lia. }
    rewrite Hrun, Heq. destruct cur_line as [|l cur_line].
    + exists groups. cbn [add_line app].
      split; [reflexivity | split; [|assumption]].
      apply segmented_drop_all; [assumption|]. now apply segmented_drop_all.
    + exists ((l :: cur_line) :: groups). cbn [add_line map].
      split; [now rewrite <- app_assoc | split].
      * apply segmented_drop_all; [assumption|].
        apply segmented_line; [discriminate|]. now apply segmented_drop_all.
      * constructor; [split; [discriminate | assumption] | assumption].
Qed.

Lemma wrap_chunks_spec (chunks : list (list ascii)) :
  exists groups : list (list (list ascii)),
    wrap_chunks width chunks = map (@concat ascii) groups
    /\ segmented chunks groups
    /\ Forall (fits width) groups.
Proof.
  destruct (wrap_loop_spec (length chunks) chunks [] (Nat.le_refl _))
    as (groups & Hrun & Hseg & Hfits).
  exists groups. unfold wrap_chunks. rewrite Hrun. auto.
Qed.

Lemma segmented_member (chunks : list (list ascii)) (groups : list (list (list ascii)))
    (group : list (list ascii)) (c : list ascii) :
  segmented chunks groups -> group ∈ groups -> c ∈ group -> c ∈ chunks.
Proof.
  induction 1 as [|chunk chunks groups _ _ IH|g chunks groups _ _ IH];
    intros Hgroup Hc.
  - inversion Hgroup.
  - apply list_elem_of_further. now apply IH.
  - apply elem_of_app. apply elem_of_cons in Hgroup as [-> | Hgroup].
    + now left.
    + right. now apply IH.
Qed.

End WrapChunks.

Section Words.

Import TextWrap.

Lemma whitespace_is_space (c : ascii) :
  is_whitespace c = true -> Py.isspace c = true.
Proof.
  destruct c as [[] [] [] [] [] [] [] []]; vm_compute; congruence.
Qed.

Lemma words_from_app_space (cur s1 : list ascii) (c : ascii) (s2 : list ascii) :
  Py.isspace c = true ->
  words_from cur (s1 ++ c :: s2) = (words_from cur s1 ++ words s2)%list.
Proof.
  intros Hc. revert cur. induction s1 as [|x s1 IH]; intros cur; cbn [app words_from].
  - now rewrite Hc.
  - destruct (Py.isspace x); [|apply IH].
    rewrite IH. now rewrite app_assoc.
Qed.

Lemma words_cons_space (c : ascii) (s : list ascii) :
  Py.isspace c = true -> words (c :: s) = words s.
Proof. intros Hc. unfold words. cbn [words_from]. now rewrite Hc. Qed.

Lemma words_app_head_space (a : list ascii) (c : ascii) (b : list ascii) :
  Py.isspace c = true ->
  words (a ++ c :: b) = (words a ++ words (c :: b))%list.
Proof.
  intros Hc. rewrite (words_cons_space c b Hc). now apply words_from_app_space.
Qed.

Lemma words_app_last_space (a : list ascii) (c : ascii) (b : list ascii) :
  Py.isspace c = true ->
  words ((a ++ [c]) ++ b) = (words (a ++ [c]) ++ words b)%list.
Proof.
  intros Hc. rewrite <- app_assoc. cbn [app]. unfold words.
  rewrite !words_from_app_space by assumption.
  unfold words. cbn [words_from flush]. now rewrite app_nil_r.
Qed.

Lemma words_blank (s : list ascii) : is_blank s = true -> words s = [].
Proof.
  induction s as [|c s IH]; [reflexivity|].
  unfold is_blank. cbn [forallb]. intros H. apply andb_true_iff in H as [Hc Hs].
  rewrite (words_cons_space c s Hc). now apply IH.
Qed.

Lemma space_run_last (chunk : list ascii) :
  chunk <> [] -> is_space_run chunk = true ->
  exists front c, chunk = (front ++ [c])%list /\ Py.isspace c = true.
Proof.
  intros Hne Hrun. destruct (exists_last Hne) as (front & c & ->).
  exists front, c. split; [reflexivity|].
  unfold is_space_run in Hrun. rewrite forallb_app in Hrun.
  apply andb_true_iff in Hrun as [_ Hc]. cbn in Hc.
  apply whitespace_is_space. now destruct (is_whitespace c).
Qed.

Lemma space_run_head (chunk : list ascii) :
  chunk <> [] -> is_space_run chunk = true ->
  exists c back, chunk = c :: back /\ Py.isspace c = true.
Proof.
  intros Hne Hrun. destruct chunk as [|c back]; [congruence|].
  exists c, back. split; [reflexivity|].
  unfold is_space_run in Hrun. cbn [forallb] in Hrun.
  apply andb_true_iff in Hrun as [Hc _]. now apply whitespace_is_space.
Qed.

(** The words of chunks that are set apart by white space are the words
    of the chunks. *)
Lemma words_concat_spaced (chunks : list (list ascii)) :
  Forall (fun c => c <> []) chunks -> spaced chunks ->
  words (concat chunks) = flat_map words chunks.
Proof.
  induction chunks as [|c1 later IH]; intros Hne Hsp; [reflexivity|].
  inversion Hne as [|? ? Hc1 Hlater]; subst.
  destruct later as [|c2 later].
  - cbn. now rewrite !app_nil_r.
  - destruct Hsp as [Hrun Hsp].
    change (flat_map words (c1 :: c2 :: later))
      with (words c1 ++ flat_map words (c2 :: later))%list.
    change (concat (c1 :: c2 :: later)) with (c1 ++ concat (c2 :: later))%list.
    rewrite <- (IH Hlater Hsp).
    destruct Hrun as [Hrun | Hrun].
    + destruct (space_run_last c1 Hc1 Hrun) as (front & c & -> & Hc).
      now apply words_app_last_space.
    + inversion Hlater as [|? ? Hc2 _]; subst.
      destruct (space_run_head c2 Hc2 Hrun) as (c & back & -> & Hc).
      cbn [concat app]. now apply words_app_head_space.
Qed.

Lemma spaced_app (a b : list (list ascii)) :
  spaced (a ++ b) -> spaced a /\ spaced b.
Proof.
  induction a as [|c1 a IH]; intros H; [split; [exact I | exact H]|].
  destruct a as [|c2 a].
  - cbn [app] in H. split; [exact I|].
    destruct b as [|c b]; [exact I | exact (proj2 H)].
  - cbn [app spaced] in H. destruct H as [Hrun H].
    destruct (IH H) as [Ha Hb]. split; [|exact Hb].
    cbn [spaced]. split; assumption.
Qed.

Lemma spaced_tail (c : list ascii) (chunks : list (list ascii)) :
  spaced (c :: chunks) -> spaced chunks.
Proof. destruct chunks as [|c2 chunks]; [intros; exact I | intros [_ H]; exact H]. Qed.

(** What the layout keeps of chunks that are set apart by white space:
    the words of the lines are the words of the chunks. *)
Lemma segmented_words (chunks : list (list ascii)) (groups : list (list (list ascii))) :
  segmented chunks groups ->
  Forall (fun c => c <> []) chunks -> spaced chunks ->
  flat_map words (map (@concat ascii) groups) = flat_map words chunks.
Proof.
  induction 1 as [|chunk chunks groups Hblank _ IH|group chunks groups _ _ IH];
    intros Hne Hsp.
  - reflexivity.
  - inversion Hne; subst. cbn [flat_map]. rewrite (words_blank _ Hblank). cbn [app].
    apply IH; [assumption | now apply spaced_tail in Hsp].
  - apply Forall_app in Hne as [Hgroup Hchunks].
    apply spaced_app in Hsp as [Hsg Hsc].
    cbn [map flat_map]. rewrite flat_map_app, (IH Hchunks Hsc).
    now rewrite (words_concat_spaced group Hgroup Hsg).
Qed.

(** *** [_munge_whitespace] keeps the words *)

Lemma words_from_translate (cur s : list ascii) :
  words_from cur (translate_whitespace s) = words_from cur s.
Proof.
  revert cur. induction s as [|c s IH]; intros cur; [reflexivity|].
  cbn [translate_whitespace map words_from].
  destruct (is_whitespace c) eqn:Hc.
  - rewrite (whitespace_is_space c Hc).
    change (Py.isspace SP) with true. cbn iota. f_equal. apply IH.
  - destruct (Py.isspace c); [f_equal|]; apply IH.
Qed.

Lemma words_from_spaces (n : nat) (s : list ascii) :
  words_from [] (repeat SP n ++ s) = words_from [] s.
Proof.
  induction n as [|n IH]; [reflexivity|].
  cbn [repeat app words_from]. change (Py.isspace SP) with true. cbn iota.
  exact IH.
Qed.

Lemma words_from_expandtabs (column : nat) (cur s : list ascii) :
  words_from cur (expandtabs 8 column s) = words_from cur s.
Proof.
  revert column cur. induction s as [|c s IH]; intros column cur; [reflexivity|].
  cbn [expandtabs].
  destruct (Ascii.eqb_spec c HT) as [-> | Hc].
  - assert (Hincr : exists k, (8 - column mod 8 = S k)%nat).
    { pose proof (Nat.mod_upper_bound column 8 ltac:(discriminate)).
      exists (7 - column mod 8)%nat. lia. }
    destruct Hincr as [k ->].
    cbn [repeat app words_from]. change (Py.isspace SP) with true.
    change (Py.isspace HT) with true. cbn iota. f_equal.
    rewrite words_from_spaces. apply IH.
  - cbn [words_from]. destruct (Py.isspace c); [f_equal|]; apply IH.
Qed.

Lemma words_munge (s : list ascii) : words (munge_whitespace s) = words s.
Proof.
  unfold words, munge_whitespace.
  now rewrite words_from_translate, words_from_expandtabs.
Qed.

Lemma expandtabs_member (x : ascii) (column : nat) (s : list ascii) :
  x ∈ expandtabs 8 column s -> x = SP \/ x ∈ s.
Proof.
  revert column. induction s as [|c s IH]; intros column; cbn [expandtabs].
  - intros H. inversion H.
  - destruct (Ascii.eqb c HT).
    + intros H. apply elem_of_app in H as [H | H].
      * left. apply list_elem_of_In, repeat_spec in H. exact H.
      * destruct (IH _ H) as [-> | Hx]; [now left | right].
        now apply list_elem_of_further.
    + intros H. apply elem_of_cons in H as [-> | H].
      * right. apply list_elem_of_here.
      * destruct (IH _ H) as [-> | Hx]; [now left | right].
        now apply list_elem_of_further.
Qed.

Lemma munge_member (x : ascii) (s : list ascii) :
  x ∈ munge_whitespace s -> x = SP \/ (x ∈ s /\ is_whitespace x = false).
Proof.
  unfold munge_whitespace, translate_whitespace. intros H.
  apply list_elem_of_fmap in H as (c & -> & Hc).
  destruct (is_whitespace c) eqn:Hws; [now left|].
  destruct (expandtabs_member _ _ _ Hc) as [-> | Hin]; [now left | now right].
Qed.

End Words.

Section Split.

Import TextWrap.

(** The chunks are the text, cut into pieces. *)
Lemma concat_split_from (m : mode) (before cur rest : list ascii) :
  concat (split_from m before cur rest) = (rev cur ++ rest)%list.
Proof.
  revert m before cur. induction rest as [|c rest IH]; intros m before cur.
  - cbn [split_from]. destruct cur; cbn; now rewrite ?app_nil_r.
  - cbn [split_from]. rewrite concat_app.
    assert (Hflush : forall l : list ascii, concat (flush l) = rev l).
    { intros [|x l]; [reflexivity|]. cbn [flush concat]. now rewrite app_nil_r. }
    destruct cur as [|x cur].
    + cbn [flush concat app rev].
      destruct (hyphen_break (start_mode before c rest) before [] c rest).
      * cbn [concat]. rewrite IH. reflexivity.
      * rewrite IH. reflexivity.
    + destruct (ends_before m before c rest).
      * rewrite Hflush.
        destruct (hyphen_break (start_mode before c rest) before [] c rest).
        -- cbn [concat]. rewrite IH. reflexivity.
        -- rewrite IH. reflexivity.
      * cbn [concat app].
        destruct (hyphen_break m before (x :: cur) c rest).
        -- cbn [concat]. rewrite IH. cbn [rev app].
           now rewrite <- !app_assoc.
        -- rewrite IH. cbn [rev]. now rewrite <- !app_assoc.
Qed.

Lemma concat_split (s : list ascii) : concat (split s) = s.
Proof. unfold split. now rewrite concat_split_from. Qed.

Lemma forallb_rev {A} (f : A -> bool) (l : list A) :
  forallb f (rev l) = forallb f l.
Proof.
  induction l as [|x l IH]; [reflexivity|].
  cbn [rev forallb]. rewrite forallb_app, IH. cbn [forallb].
  rewrite andb_true_r. apply andb_comm.
Qed.

(** On a text without hyphens the chunks are runs of white space and
    words in turn. *)
Lemma split_from_spaced (m : mode) (before cur rest : list ascii) :
  HY ∉ rest ->
  (cur <> [] -> m <> InDash /\ forallb is_whitespace cur = mode_is_space m) ->
  let out := split_from m before cur rest in
  Forall (fun c => c <> []) out
  /\ spaced out
  /\ (cur <> [] ->
      exists first later, out = first :: later
                          /\ is_space_run first = mode_is_space m).
Proof.
  cbv zeta. revert m before cur.
  induction rest as [|c rest IH]; intros m before cur Hhy Hinv.
  - cbn [split_from]. destruct cur as [|x cur]; cbn [flush].
    + repeat split; [constructor | congruence].
    + specialize (Hinv ltac:(discriminate)) as [_ Hkind].
      split; [|split; [exact I|]].
      * constructor; [|constructor]. intros Hnil.
        apply (f_equal (@length ascii)) in Hnil. rewrite length_rev in Hnil.
        discriminate.
      * intros _. exists (rev (x :: cur)), []. split; [reflexivity|].
        unfold is_space_run. now rewrite forallb_rev.
  - apply not_elem_of_cons in Hhy as [Hc Hhy].
    assert (Heqb : Ascii.eqb c HY = false).
    { apply Ascii.eqb_neq. congruence. }
    assert (Hdash : dash_ahead (c :: rest) = false).
    { unfold dash_ahead. cbn [hyphens_then_word_char]. now rewrite Heqb. }
    assert (Hbreak : forall m' cur', hyphen_break m' before cur' c rest = false).
    { intros m' cur'. unfold hyphen_break. rewrite Heqb.
      destruct m', cur'; reflexivity. }
    assert (Hstart : start_mode before c rest
                     = if is_whitespace c then InSpace else InWord).
    { unfold start_mode. rewrite Hdash, andb_false_r. reflexivity. }
    assert (Hnew : [c] <> [] ->
                   start_mode before c rest <> InDash
                   /\ forallb is_whitespace [c]
                      = mode_is_space (start_mode before c rest)).
    { intros _. rewrite Hstart. cbn [forallb].
      destruct (is_whitespace c); split; (discriminate || reflexivity). }
    cbn [split_from]. rewrite !Hbreak.
    destruct cur as [|x cur].
    + cbn [flush app].
      destruct (IH (start_mode before c rest) (c :: before) [c] Hhy Hnew)
        as (Hne & Hsp & _).
      split; [exact Hne | split; [exact Hsp | congruence]].
    + specialize (Hinv ltac:(discriminate)) as [Hm Hkind].
      assert (Hends : ends_before m before c rest
                      = if mode_is_space m then negb (is_whitespace c)
                        else is_whitespace c).
      { destruct m; cbn [ends_before mode_is_space]; [reflexivity | congruence |].
        rewrite Hdash, andb_false_r. apply orb_false_r. }
      destruct (ends_before m before c rest) eqn:Hfresh.
      * destruct (IH (start_mode before c rest) (c :: before) [c] Hhy Hnew)
          as (Hne & Hsp & Hhead).
        destruct (Hhead ltac:(discriminate)) as (first & later & Hout & Hfirst).
        rewrite Hout in *. cbn [flush app].
        assert (Hrun : is_space_run (rev (x :: cur)) = mode_is_space m).
        { unfold is_space_run. now rewrite forallb_rev. }
        split; [|split].
        -- constructor; [|exact Hne]. intros Hnil.
           apply (f_equal (@length ascii)) in Hnil. rewrite length_rev in Hnil.
           discriminate.
        -- cbn [spaced]. split; [|exact Hsp].
           rewrite Hrun, Hfirst, Hstart.
           destruct (mode_is_space m); [now left|].
           rewrite <- Hends. cbn [mode_is_space]. right. reflexivity.
        -- intros _. exists (rev (x :: cur)), (first :: later). auto.
      * cbn [app].
        destruct (IH m (c :: before) (c :: x :: cur) Hhy) as (Hne & Hsp & Hhead).
        { intros _. split; [exact Hm|].
          cbn [forallb] in Hkind |- *. rewrite Hkind.
          destruct (mode_is_space m); cbn [negb] in Hends.
          - symmetry in Hends. apply negb_false_iff in Hends. now rewrite Hends.
          - now rewrite <- Hends. }
        split; [exact Hne | split; [exact Hsp|]].
        intros _. apply Hhead. discriminate.
Qed.

Lemma split_spaced (s : list ascii) :
  HY ∉ s -> Forall (fun c => c <> []) (split s) /\ spaced (split s).
Proof.
  intros Hhy.
  destruct (split_from_spaced InWord [] [] s Hhy ltac:(congruence)) as (Hne & Hsp & _).
  split; assumption.
Qed.

End Split.

Section Layout.

Import TextWrap.

Lemma absent_by_test (x : ascii) (s : list ascii) :
  forallb (fun c => negb (Ascii.eqb c x)) s = true -> x ∉ s.
Proof.
  intros Htest Hin. rewrite forallb_forall in Htest.
  apply list_elem_of_In in Hin. specialize (Htest x Hin).
  now rewrite Ascii.eqb_refl in Htest.
Qed.

Lemma munge_keeps_hyphen_free (s : list ascii) :
  HY ∉ s -> HY ∉ munge_whitespace s.
Proof.
  intros Hs Hin. destruct (munge_member _ _ Hin) as [Heq | [Hin' _]];
    [discriminate | contradiction].
Qed.

Lemma munge_no_line_feed (s : list ascii) : LF ∉ munge_whitespace s.
Proof.
  intros Hin. destruct (munge_member _ _ Hin) as [Heq | [_ Hws]]; discriminate.
Qed.

(** C5, as the program has it.  The text is cut into chunks, which are
    runs of white space, words, and the parts of a hyphenated word up to
    each hyphen.  The lines are made of consecutive whole chunks, and the
    chunks left out between the lines are blank, so a line never ends
    inside a chunk; no line holds a line feed.  A line is longer than 23
    characters only when it is one chunk that is longer than 23.  In a text
    without hyphens no word is split: the words of the lines are the words
    of the text. *)
Theorem wrap_breaks_between_chunks (text : string) :
  let chunks := split_chunks (list_ascii_of_string text) in
  let lines := wrap_lines text in
  wrap_text_for_margins text = string_of_list_ascii (join_lines lines)
  /\ (exists groups : list (list (list ascii)),
        lines = map (@concat ascii) groups /\ segmented chunks groups)
  /\ Forall (fun line => LF ∉ line) lines
  /\ (forall line, line ∈ lines ->
        length line <= chars_per_line
        \/ (line ∈ chunks /\ chars_per_line < length line))
  /\ (HY ∉ list_ascii_of_string text -> keeps_words_whole text).
Proof.
  cbv zeta. unfold keeps_words_whole, wrap_lines, wrap.
  set (s := list_ascii_of_string text).
  destruct (wrap_chunks_spec chars_per_line (split_chunks s))
    as (groups & Hlines & Hseg & Hfits).
  assert (Hmember : forall line, line ∈ wrap_chunks chars_per_line (split_chunks s) ->
            exists group, group ∈ groups /\ line = concat group).
  { intros line Hline. rewrite Hlines in Hline.
    apply list_elem_of_fmap in Hline as (group & -> & Hgroup). eauto. }
  split; [reflexivity | split; [eauto | split; [|split]]].
  - apply Forall_forall. intros line Hline Hlf.
    destruct (Hmember line Hline) as (group & Hgroup & ->).
    apply list_elem_of_In, in_concat in Hlf as (c & Hc & Hlf).
    apply list_elem_of_In in Hc.
    pose proof (segmented_member _ _ _ _ Hseg Hgroup Hc) as Hchunk.
    apply (munge_no_line_feed s). unfold split_chunks in Hchunk.
    rewrite <- (concat_split (munge_whitespace s)).
    apply list_elem_of_In, in_concat. exists c.
    split; [now apply list_elem_of_In | exact Hlf].
  - intros line Hline. destruct (Hmember line Hline) as (group & Hgroup & ->).
    rewrite Forall_forall in Hfits.
    destruct (Hfits group Hgroup) as [_ [Hshort | (c & -> & Hlong)]].
    + now left.
    + right. cbn [concat]. rewrite app_nil_r. split; [|exact Hlong].
      apply (segmented_member _ _ _ _ Hseg Hgroup). apply list_elem_of_here.
  - intros Hhy. rewrite Hlines.
    destruct (split_spaced (munge_whitespace s) (munge_keeps_hyphen_free s Hhy))
      as [Hne Hsp].
    unfold split_chunks in Hseg.
    rewrite (segmented_words _ _ Hseg Hne Hsp).
    rewrite <- (words_concat_spaced _ Hne Hsp), concat_split.
    apply words_munge.
Qed.

End Layout.

(** C5, as claimed, fails: a hyphenated word is split behind the hyphen
    when only its first part fits on the line. *)
Lemma hyphenated_word_counterexample :
  ~ keeps_words_whole "aaaaaaaaaaaaaaaa bbbb-cccc".
Proof. unfold keeps_words_whole. vm_compute. discriminate. Qed.

Example hyphenated_word_lines :
  wrap_lines "aaaaaaaaaaaaaaaa bbbb-cccc"
  = [list_ascii_of_string "aaaaaaaaaaaaaaaa bbbb-"; list_ascii_of_string "cccc"].
Proof. reflexivity. Qed.

Example long_word_kept_whole :
  wrap_lines "so aaaaaaaaaaaaaaaaaaaaaaaaaaaaaa it is"
  = [list_ascii_of_string "so";
     list_ascii_of_string "aaaaaaaaaaaaaaaaaaaaaaaaaaaaaa";
     list_ascii_of_string "it is"].
Proof. reflexivity. Qed.

Lemma wrap_breaks_between_chunks_witness :
  keeps_words_whole "Miss you more than words can ever say, every day".
Proof.
  apply (wrap_breaks_between_chunks
           "Miss you more than words can ever say, every day").
  apply absent_by_test. reflexivity.
Defined.

(** * Further properties *)

(** ** Trim planner: the window that is rendered *)

Section TrimWindow.

Local Open Scope Q_scope.

(** X1. The render starts at [start_trim] and lasts for the planned time.
    For a clip longer than 0.75 the window ends [end_trim] before the end
    of the clip; for a clip of at most 0.75 the window ends after the end
    of the clip. *)
Theorem trim_window (d : Q) :
  (0.75 < d -> start_trim + calculate_trimmed_duration d == d - end_trim)
  /\ (d <= 0.75 -> d < start_trim + calculate_trimmed_duration d).
Proof.
  split; intros Hd.
  - rewrite trimmed_when_positive; unfold start_trim, end_trim; [ring | lra].
  - rewrite trimmed_when_too_short by (unfold start_trim, end_trim; lra).
    pose proof (Q.le_max_l 0.1 (d * 0.8)) as Hfloor.
    pose proof (Q.le_max_r 0.1 (d * 0.8)) as Hshare.
    unfold start_trim. lra.
Qed.

Lemma trim_window_witness :
  start_trim + calculate_trimmed_duration 10 == 10 - end_trim
  /\ 0.5 < start_trim + calculate_trimmed_duration 0.5.
Proof.
  split.
  - apply (proj1 (trim_window 10)). reflexivity.
  - apply (proj2 (trim_window 0.5)). discriminate.
Defined.

(** X2. The plan is not monotone: a clip a little longer than 0.75 gets a
    shorter render than every clip of at most 0.75. *)
Theorem plan_drops_after_threshold (d d' : Q) :
  0.75 < d -> d < 0.85 -> d' <= 0.75 ->
  calculate_trimmed_duration d < calculate_trimmed_duration d'.
Proof.
  intros Hlow Hhigh Hshort.
  rewrite (trimmed_when_positive d) by (unfold start_trim, end_trim; lra).
  rewrite (trimmed_when_too_short d') by (unfold start_trim, end_trim; lra).
  pose proof (Q.le_max_l 0.1 (d' * 0.8)) as Hfloor.
  unfold start_trim, end_trim. lra.
Qed.

Lemma plan_drops_after_threshold_witness :
  calculate_trimmed_duration 0.8 < calculate_trimmed_duration 0.75.
Proof.
  apply plan_drops_after_threshold; [reflexivity | reflexivity | discriminate].
Defined.

End TrimWindow.

(** ** Type inference: case and range *)

Section TypeRange.

Lemma lower_upper_char (c : ascii) :
  Py.lower_char (Py.upper_char c) = Py.lower_char c.
Proof. destruct c as [[] [] [] [] [] [] [] []]; reflexivity. Qed.

Lemma lower_lower_char (c : ascii) :
  Py.lower_char (Py.lower_char c) = Py.lower_char c.
Proof. destruct c as [[] [] [] [] [] [] [] []]; reflexivity. Qed.

Lemma lower_upper (s : string) : Py.lower (Py.upper s) = Py.lower s.
Proof.
  induction s as [|c s IH]; [reflexivity|].
  cbn. rewrite lower_upper_char. f_equal. exact IH.
Qed.

Lemma lower_lower (s : string) : Py.lower (Py.lower s) = Py.lower s.
Proof.
  induction s as [|c s IH]; [reflexivity|].
  cbn. rewrite lower_lower_char. f_equal. exact IH.
Qed.

Lemma extract_type_by_lower (valid_types : list string) (f1 f2 : string) :
  Py.lower f1 = Py.lower f2 ->
  extract_type_from_filename valid_types f1
  = extract_type_from_filename valid_types f2.
Proof.
  intros Heq. induction valid_types as [|k later IH]; [reflexivity|].
  cbn [extract_type_from_filename]. rewrite Heq, IH. reflexivity.
Qed.

(** X3. The inferred type does not depend on the letter case of the file
    name. *)
Theorem extract_type_ignores_case (valid_types : list string) (filename : string) :
  extract_type_from_filename valid_types (Py.upper filename)
  = extract_type_from_filename valid_types filename
  /\ extract_type_from_filename valid_types (Py.lower filename)
     = extract_type_from_filename valid_types filename.
Proof.
  split; apply extract_type_by_lower; [apply lower_upper | apply lower_lower].
Qed.

(** X4. With the five keywords in any iteration order, the result is
    [None] exactly when no keyword occurs in the lower-cased name, and
    otherwise it is one of the five capitalised keywords, whose lower-case
    form occurs in the name. *)
Theorem extract_type_range (valid_types : list string) (filename : string) :
  valid_types ≡ₚ vocabulary ->
  match extract_type_from_filename valid_types filename with
  | None => Forall (fun k => occurs_in filename k = false) vocabulary
  | Some video_type =>
      video_type ∈ ["Romantic"; "Crying"; "Confused"; "Surprised"; "Sad"]
      /\ occurs_in filename (Py.lower video_type) = true
  end.
Proof.
  intros Hperm.
  destruct (extract_type_from_filename valid_types filename) as [video_type|] eqn:Hres.
  - assert (Hsome : exists k, k ∈ valid_types /\ occurs_in filename k = true).
    { clear Hperm. revert Hres.
      induction valid_types as [|k later IH]; [discriminate|].
      cbn [extract_type_from_filename].
      destruct (Py.contains k (Py.lower filename)) eqn:Hk.
      - intros _. exists k. split; [apply list_elem_of_here | exact Hk].
      - intros H. destruct (IH H) as (k' & Hin & Hocc).
        exists k'. split; [now apply list_elem_of_further | exact Hocc]. }
    destruct Hsome as (k & Hin & Hocc).
    destruct (extract_type_first valid_types filename k Hin Hocc)
      as (earlier & first & later & Heq & _ & Hfirst & Hcap).
    rewrite Hres in Hcap. injection Hcap as ->.
    assert (Hvoc : first ∈ vocabulary).
    { rewrite <- Hperm, Heq. apply elem_of_app. right. apply list_elem_of_here. }
    clear Heq Hin Hocc Hres. revert first Hvoc Hfirst.
    apply (vocabulary_cases
             (fun k => occurs_in filename k = true ->
                Py.capitalize k ∈ ["Romantic"; "Crying"; "Confused"; "Surprised"; "Sad"]
                /\ occurs_in filename (Py.lower (Py.capitalize k)) = true));
      intros Hocc; (split; [|exact Hocc]);
      repeat first [apply list_elem_of_here | apply list_elem_of_further].
  - rewrite <- Hperm. clear Hperm. revert Hres.
    induction valid_types as [|k later IH]; [constructor|].
    cbn [extract_type_from_filename].
    destruct (Py.contains k (Py.lower filename)) eqn:Hk; [discriminate|].
    intros H. constructor; [exact Hk | exact (IH H)].
Qed.

Lemma extract_type_range_witness :
  Forall (fun k => occurs_in "holiday_clip" k = false) vocabulary.
Proof. exact (extract_type_range vocabulary "holiday_clip" (reflexivity _)). Defined.

End TypeRange.

(** ** The video files of the input directory *)

Section VideoFiles.

Lemma substring_all (s : string) : substring 0 (String.length s) s = s.
Proof. induction s as [|c s IH]; [reflexivity|]. cbn. now rewrite IH. Qed.

Lemma substring_join (s : string) (i : nat) :
  (i <= String.length s)%nat ->
  substring 0 i s +:+ substring i (String.length s - i) s = s.
Proof.
  revert i. induction s as [|c s IH]; intros i Hi.
  - cbn in Hi. assert (i = 0%nat) as -> by lia. reflexivity.
  - destruct i as [|i].
    + cbn [substring String.append]. rewrite Nat.sub_0_r.
      apply (substring_all (String c s)).
    + cbn in Hi. simpl.
      change (String c (substring 0 i s +:+ substring i (String.length s - i) s)
              = String c s).
      f_equal. apply IH. lia.
Qed.

Lemma rfind_dot_bound (s : string) (i : nat) :
  Py.rfind_dot s = Some i -> (i < String.length s)%nat.
Proof.
  revert i. induction s as [|c s IH]; intros i; cbn; [discriminate|].
  destruct (Py.rfind_dot s) as [j|].
  - intros [= <-]. specialize (IH j eq_refl). lia.
  - destruct (Ascii.eqb c "."%char); [|discriminate]. intros [= <-]. lia.
Qed.

Lemma split_point_bound (name : string) (i : nat) :
  PurePath.split_point name = Some i ->
  (0 < i)%nat /\ (i < String.length name - 1)%nat.
Proof.
  unfold PurePath.split_point.
  destruct (Py.rfind_dot name) as [j|]; [|discriminate].
  destruct ((0 <? j)%nat && (j <? String.length name - 1)%nat) eqn:Hin;
    [|discriminate].
  intros [= <-]. apply andb_true_iff in Hin as [H1 H2].
  apply Nat.ltb_lt in H1, H2. auto.
Qed.

(** The name of a file is its stem followed by its suffix. *)
Lemma stem_suffix_join (name : string) :
  PurePath.stem name +:+ PurePath.suffix name = name.
Proof.
  unfold PurePath.stem, PurePath.suffix.
  destruct (PurePath.split_point name) as [i|] eqn:Hsplit.
  - apply split_point_bound in Hsplit. apply substring_join. lia.
  - clear Hsplit. induction name as [|c name IH]; [reflexivity|].
    change (String c (name +:+ "") = String c name). now f_equal.
Qed.

Lemma substring_nonempty (s : string) (i : nat) :
  (0 < i)%nat -> (i <= String.length s)%nat -> substring 0 i s <> "".
Proof.
  intros Hpos Hle. destruct s as [|c s]; [cbn in Hle; lia|].
  destruct i as [|i]; [lia|]. discriminate.
Qed.

(** X5. A file counts as a video only through a proper suffix: its name is
    a non-empty stem followed by a suffix that, in lower case, is one of
    the seven extensions.  A name without a suffix, such as [.mp4] or
    [mp4], does not count. *)
Theorem video_file_shape (name : string) :
  is_video_file name = true ->
  PurePath.stem name <> ""
  /\ PurePath.stem name +:+ PurePath.suffix name = name
  /\ Py.lower (PurePath.suffix name) ∈ video_extensions
  /\ PurePath.split_point name <> None.
Proof.
  unfold is_video_file. intros Hvideo. apply bool_decide_eq_true in Hvideo.
  assert (Hsplit : PurePath.split_point name <> None).
  { intros Hnone. unfold PurePath.suffix in Hvideo. rewrite Hnone in Hvideo.
    cbn in Hvideo. unfold video_extensions in Hvideo.
    repeat (apply elem_of_cons in Hvideo as [Habs | Hvideo]; [discriminate|]).
    inversion Hvideo. }
  split; [|split; [apply stem_suffix_join | split; assumption]].
  unfold PurePath.stem.
  destruct (PurePath.split_point name) as [i|] eqn:Hi; [|congruence].
  apply split_point_bound in Hi. apply substring_nonempty; lia.
Qed.

Lemma video_file_shape_witness :
  PurePath.stem "My.Clip.MOV" +:+ PurePath.suffix "My.Clip.MOV" = "My.Clip.MOV".
Proof. exact (proj1 (proj2 (video_file_shape "My.Clip.MOV" eq_refl))). Defined.

Example video_file_edge_cases :
  is_video_file ".mp4" = false /\ is_video_file "mp4" = false
  /\ is_video_file "clip.mp4.txt" = false /\ is_video_file "clip.mp4." = false
  /\ is_video_file "clip.MP4" = true /\ is_video_file "clip.tar.webm" = true.
Proof. repeat split; reflexivity. Qed.

Lemma insert_sorted_perm (name : string) (names : list string) :
  insert_sorted name names ≡ₚ name :: names.
Proof.
  induction names as [|first later IH]; [reflexivity|].
  cbn [insert_sorted]. destruct (String.leb name first); [reflexivity|].
  rewrite IH. apply Permutation_swap.
Qed.

Lemma sorted_perm (names : list string) : sorted names ≡ₚ names.
Proof.
  induction names as [|name names IH]; [reflexivity|].
  cbn [sorted foldr]. rewrite insert_sorted_perm. now constructor.
Qed.

Lemma insert_sorted_head (a name : string) (names : list string) :
  name_le a name -> HdRel name_le a names ->
  HdRel name_le a (insert_sorted name names).
Proof.
  intros Hname Hhead. destruct names as [|first later]; cbn [insert_sorted].
  - now constructor.
  - destruct (String.leb name first); constructor; [assumption|].
    now apply HdRel_inv in Hhead.
Qed.

Lemma insert_sorted_keeps_order (name : string) (names : list string) :
  Sorted name_le names -> Sorted name_le (insert_sorted name names).
Proof.
  induction 1 as [|first later Hlater IH Hhead]; cbn [insert_sorted].
  - repeat constructor.
  - destruct (String.leb name first) eqn:Hle.
    + constructor; [now constructor | now constructor].
    + constructor; [exact IH|].
      apply insert_sorted_head; [|exact Hhead].
      destruct (String.leb_total name first) as [H | H]; [congruence | exact H].
Qed.

Lemma sorted_in_order (names : list string) : Sorted name_le (sorted names).
Proof.
  induction names as [|name names IH]; [constructor|].
  cbn [sorted foldr]. now apply insert_sorted_keeps_order.
Qed.

(** X6. The files found are the video files of the directory, each as
    often as it is listed, in the order of their names; a directory that
    does not exist gives no files. *)
Theorem find_all_video_files_sorted_videos (names : list string) :
  find_all_video_files (Some names) ≡ₚ List.filter is_video_file names
  /\ Sorted name_le (find_all_video_files (Some names))
  /\ (forall name, name ∈ find_all_video_files (Some names)
                   <-> name ∈ names /\ is_video_file name = true)
  /\ find_all_video_files None = [].
Proof.
  cbn [find_all_video_files].
  split; [apply sorted_perm | split; [apply sorted_in_order | split; [|reflexivity]]].
  intros name. rewrite sorted_perm, !list_elem_of_In, filter_In. reflexivity.
Qed.

(** X7. [find_video_file] finds a file exactly when [find_all_video_files]
    finds any, and the file it finds is one of them: the first video in
    the order of the listing. *)
Theorem find_video_file_agrees (listing : option (list string)) :
  match find_video_file listing with
  | Some name =>
      name ∈ find_all_video_files listing
      /\ exists earlier later,
           listing = Some (earlier ++ name :: later)%list
           /\ Forall (fun other => is_video_file other = false) earlier
  | None => find_all_video_files listing = []
  end.
Proof.
  destruct listing as [names|]; [|reflexivity].
  cbn [find_video_file find_all_video_files].
  induction names as [|first names IH]; [reflexivity|].
  cbn [List.find List.filter].
  destruct (is_video_file first) eqn:Hfirst.
  - split.
    + rewrite sorted_perm. apply list_elem_of_here.
    + exists [], names. split; [reflexivity | constructor].
  - destruct (List.find is_video_file names) as [name|].
    + destruct IH as (Hin & earlier & later & [= ->] & Hnone).
      split; [exact Hin|].
      exists (first :: earlier), later. split; [reflexivity|].
      now constructor.
    + exact IH.
Qed.

Lemma list_ascii_of_string_app (s t : string) :
  list_ascii_of_string (s +:+ t)
  = (list_ascii_of_string s ++ list_ascii_of_string t)%list.
Proof.
  induction s as [|c s IH]; [reflexivity|].
  change (list_ascii_of_string (String c s +:+ t))
    with (c :: list_ascii_of_string (s +:+ t)).
  now rewrite IH.
Qed.

Lemma string_app_inv_tail (s1 s2 t : string) : s1 +:+ t = s2 +:+ t -> s1 = s2.
Proof.
  intros Heq. apply (f_equal list_ascii_of_string) in Heq.
  rewrite !list_ascii_of_string_app in Heq. apply app_inv_tail in Heq.
  apply (f_equal string_of_list_ascii) in Heq.
  now rewrite !string_of_list_ascii_of_string in Heq.
Qed.

(** X8. Two input files are rendered to the same output path exactly when
    they have the same stem, whatever their extensions. *)
Theorem output_path_by_stem (name1 name2 : string) :
  output_path name1 = output_path name2
  <-> PurePath.stem name1 = PurePath.stem name2.
Proof.
  unfold output_path. split.
  - intros Heq.
    assert (Hcut : forall s a b : string, s +:+ a = s +:+ b -> a = b).
    { intros s a b. induction s as [|c s IH]; cbn; [auto | intros [= H]; auto]. }
    apply Hcut in Heq. now apply string_app_inv_tail in Heq.
  - now intros ->.
Qed.

Example same_stem_same_output :
  is_video_file "sad_01.mp4" = true /\ is_video_file "sad_01.avi" = true
  /\ output_path "sad_01.mp4" = output_path "sad_01.avi".
Proof. repeat split; reflexivity. Qed.

End VideoFiles.

(** ** Caption selector: what a result tells, and the order of the rows *)

Section SelectorMore.

Context (env : environment).

(** X9. A caption is only handed out marked: when the selector returns a
    text, both client calls went through, the text is the trimmed overlay
    text of the first eligible row, and the one write of the call changed
    the sheet at column 1 of that row. *)
Theorem returned_caption_is_marked
    (video_type text : string) (w w' : world) :
  find_next_overlay_text env video_type w = (Some text, w') ->
  exists i record,
    first_eligible video_type (rows (sheet w)) i record
    /\ text = Py.strip (cell record "overlay text")
    /\ sheet w' = update_cell (i + 2) 1 "TRUE" (sheet w)
    /\ events_since (length (log w)) w'
       = [GetAllRecords; UpdateCell (i + 2) 1 "TRUE"]
    /\ client_raises env (client_calls w) = false
    /\ client_raises env (S (client_calls w)) = false.
Proof.
  rewrite find_next_overlay_text_run.
  destruct (selection_of env video_type w) as [| |i record written] eqn:Hsel;
    [discriminate | discriminate |].
  destruct written; [|discriminate].
  apply selection_picked in Hsel as (Hi & Hel & Hfirst & Hget & Hput).
  intros [= <- <-]. exists i, record.
  split; [split; [exact Hi | split; [exact Hel | exact Hfirst]]|].
  split; [reflexivity | split; [reflexivity | split]].
  - unfold events_since. cbn [log]. apply drop_app_length.
  - split; [exact Hget|]. symmetry in Hput. now apply negb_true_iff in Hput.
Qed.

Lemma missing_flag_not_eligible (video_type : string) (record : gmap string string) :
  record !! "used?" = None -> ~ eligible video_type record.
Proof.
  intros Hmiss [_ Hused]. unfold cell in Hused. rewrite Hmiss in Hused.
  discriminate.
Qed.

Lemma select_each_nothing (video_types : list string) (w : world) :
  (forall video_type,
     Forall (fun record => ~ eligible video_type record) (rows (sheet w))) ->
  let run := select_each env video_types w in
  Forall (fun found => found = None) run.1
  /\ sheet run.2 = sheet w
  /\ cell_writes (events_since (length (log w)) run.2) = [].
Proof.
  cbv zeta. intros Hnone.
  assert (Hgen : exists events,
            Forall (fun found => found = None) (select_each env video_types w).1
            /\ sheet (select_each env video_types w).2 = sheet w
            /\ log (select_each env video_types w).2 = (log w ++ events)%list
            /\ cell_writes events = []).
  { revert w Hnone. induction video_types as [|video_type later IH]; intros w Hnone.
    - exists []. cbn. rewrite app_nil_r. repeat split. constructor.
    - cbn [select_each]. unfold bind, ret.
      rewrite find_next_overlay_text_run.
      assert (Hsel : selection_of env video_type w = ClientDown
                     \/ selection_of env video_type w = NothingLeft)
        by apply selection_without_eligible, Hnone.
      assert (Hnext : forall video_type',
                Forall (fun record => ~ eligible video_type' record)
                       (rows (sheet (after_read w)))) by exact Hnone.
      destruct (IH (after_read w) Hnext) as (events & Hres & Hsheet & Hlog & Hwrites).
      exists (GetAllRecords :: events).
      destruct Hsel as [-> | ->];
        change (World (sheet w) (S (client_calls w)) (ffmpeg_runs w) (caption_file w)
                  (output_files w) (log w ++ [GetAllRecords])) with (after_read w);
        destruct (select_each env later (after_read w)) as [more w2];
        cbn [fst snd] in *;
        (split; [constructor; [reflexivity | exact Hres]|]);
        (split; [exact Hsheet|]);
        (split; [rewrite Hlog; cbn [after_read log]; now rewrite <- app_assoc
                | exact Hwrites]). }
  destruct Hgen as (events & Hres & Hsheet & Hlog & Hwrites).
  split; [exact Hres | split; [exact Hsheet|]].
  now rewrite (events_since_app _ _ _ Hlog).
Qed.

(** X10. The selector reads the key [used?] as it is spelled.  On a sheet
    whose rows lack that key, for instance under a header [Used?], which
    the check of the format accepts, no call ever returns a caption or
    writes a cell. *)
Theorem exact_used_header_needed (video_types : list string) (w : world) :
  Forall (fun record => record !! "used?" = None) (rows (sheet w)) ->
  let run := select_each env video_types w in
  Forall (fun found => found = None) run.1
  /\ sheet run.2 = sheet w
  /\ cell_writes (events_since (length (log w)) run.2) = [].
Proof.
  intros Hmiss. apply select_each_nothing. intros video_type.
  eapply Forall_impl; [exact Hmiss|].
  intros record Hrecord. now apply missing_flag_not_eligible.
Qed.

(** *** Captions are handed out in row order *)

Lemma marked_row_no_match (video_type : string) (record : gmap string string) :
  row_matches video_type (<["used?" := "TRUE"]> record) = false.
Proof.
  unfold row_matches, cell. rewrite lookup_insert_eq.
  apply andb_false_iff. right. reflexivity.
Qed.

Lemma filter_after_mark (video_type : string) (f : gmap string string -> gmap string string)
    (records : list (gmap string string)) (k j : nat) (record : gmap string string) :
  scan_records video_type k records = Some (j, record) ->
  row_matches video_type (f record) = false ->
  (k <= j)%nat
  /\ List.filter (row_matches video_type) records
     = record :: List.filter (row_matches video_type) (alter f (j - k)%nat records).
Proof.
  intros Hscan Hf. revert k Hscan.
  induction records as [|r rest IH]; intros k; cbn [scan_records]; [discriminate|].
  destruct (row_matches video_type r) eqn:Hr.
  - intros [= <- <-]. split; [lia|]. rewrite Nat.sub_diag.
    cbn [List.filter]. rewrite Hr. simpl. now rewrite Hf.
  - intros Hscan. destruct (IH (S k) Hscan) as [Hle Heq]. split; [lia|].
    replace (j - k)%nat with (S (j - S k)) by lia.
    simpl. rewrite Hr. exact Heq.
Qed.

Lemma filter_none_eligible (video_type : string) (records : list (gmap string string)) :
  scan_records video_type 0 records = None ->
  List.filter (row_matches video_type) records = [].
Proof.
  generalize 0%nat. induction records as [|r rest IH]; intros k; [reflexivity|].
  cbn [scan_records List.filter].
  destruct (row_matches video_type r); [discriminate | apply IH].
Qed.

(** X11. With the used flag in column 1 and a client that does not raise,
    [n] calls for one type return the overlay texts of the first [n]
    eligible rows in row order, each once, and [None] from then on. *)
Theorem captions_in_row_order (video_type : string) (n : nat) (w : world) :
  headers (sheet w) !! 0%nat = Some "used?" ->
  (forall k, client_raises env k = false) ->
  let texts := eligible_texts video_type (rows (sheet w)) in
  (select_each env (replicate n video_type) w).1
  = (take n (map Some texts) ++ replicate (n - length texts) None)%list.
Proof.
  cbv zeta. intros Hlayout Hcalm. revert w Hlayout.
  induction n as [|n IH]; intros w Hlayout; [reflexivity|].
  cbn [replicate select_each]. unfold bind, ret.
  rewrite find_next_overlay_text_run. unfold selection_of.
  rewrite !Hcalm. cbn [negb].
  destruct (scan_records video_type 0 (rows (sheet w))) as [[i record]|] eqn:Hscan.
  - set (w1 := World _ _ _ _ _ _).
    assert (Hlayout1 : headers (sheet w1) !! 0%nat = Some "used?").
    { subst w1. cbn [sheet]. now rewrite update_cell_headers. }
    specialize (IH w1 Hlayout1).
    destruct (select_each env (replicate n video_type) w1) as [more w2].
    cbn [fst] in *. rewrite IH.
    destruct (filter_after_mark video_type (fun r => <["used?" := "TRUE"]> r)
                _ _ _ _ Hscan (marked_row_no_match video_type record)) as [_ Hfilter].
    rewrite Nat.sub_0_r in Hfilter.
    unfold eligible_texts. rewrite Hfilter. subst w1. cbn [sheet].
    rewrite (update_cell_rows _ _ "used?") by assumption.
    cbn [map length take app Nat.sub]. reflexivity.
  - set (w1 := World _ _ _ _ _ _).
    assert (Hlayout1 : headers (sheet w1) !! 0%nat = Some "used?") by exact Hlayout.
    specialize (IH w1 Hlayout1).
    destruct (select_each env (replicate n video_type) w1) as [more w2].
    cbn [fst] in *. rewrite IH. subst w1. cbn [sheet].
    unfold eligible_texts. rewrite (filter_none_eligible _ _ Hscan).
    cbn [map length]. rewrite !take_nil, !Nat.sub_0_r. reflexivity.
Qed.

End SelectorMore.

Lemma returned_caption_is_marked_witness :
  exists i record,
    first_eligible "Sad" (rows Sample.captions) i record
    /\ "Miss you" = Py.strip (cell record "overlay text").
Proof.
  destruct (returned_caption_is_marked Sample.all_succeed "Sad" "Miss you"
              (Sample.start Sample.captions) Sample.after_first_pick)
    as (i & record & Hfirst & Htext & _).
  - vm_compute. reflexivity.
  - exists i, record. split; assumption.
Defined.

Lemma exact_used_header_needed_witness :
  check_sheet_format MoreSamples.capitalised = true
  /\ Forall (fun found => found = None)
       (select_each Sample.all_succeed ["Sad"; "Sad"]
          (Sample.start MoreSamples.capitalised)).1.
Proof.
  split; [vm_compute; reflexivity|].
  apply (exact_used_header_needed Sample.all_succeed ["Sad"; "Sad"]
           (Sample.start MoreSamples.capitalised)).
  repeat constructor.
Defined.

Lemma captions_in_row_order_witness :
  (select_each Sample.all_succeed (replicate 4 "Sad")
     (Sample.start MoreSamples.four_rows)).1
  = [Some "one"; Some "two"; Some ""; None].
Proof.
  exact (captions_in_row_order Sample.all_succeed "Sad" 4
           (Sample.start MoreSamples.four_rows) eq_refl (fun _ => eq_refl)).
Defined.
(** ** Render tiers and driver: what a run leaves behind *)

Section RenderMore.

Context (env : environment).

Ltac unfold_render :=
  unfold edit_video_with_text, edit_video_fallback, edit_video_no_text, bind, ret,
    write_caption, run_ffmpeg, remove_caption;
  cbn [sheet client_calls ffmpeg_runs caption_file output_files log fst snd].

Ltac reduce_render :=
  cbn [sheet client_calls ffmpeg_runs caption_file output_files log fst snd
       Z.eqb Pos.eqb];
  rewrite <- ?app_assoc; cbn [app].

(** The runs of one pass through the cascade: how many there are, what
    they are asked for, and how the last one ends. *)
Lemma edit_video_with_text_runs
    (video_file overlay_text : string) (d : Q) (w : world) :
  let run := edit_video_with_text env video_file overlay_text d w in
  exists events,
    log run.2 = (log w ++ events)%list
    /\ caption_file run.2 = None
    /\ ffmpeg_runs run.2 = (ffmpeg_runs w + length (ffmpeg_cmds events))%nat
    /\ (1 <= length (ffmpeg_cmds events) <= 3)%nat
    /\ Forall (fun cmd => cmd_input cmd = input_path video_file
                          /\ cmd_ss cmd = start_trim
                          /\ cmd_duration cmd = d)
         (ffmpeg_cmds events)
    /\ (run.1 = true <->
        ffmpeg_result env (ffmpeg_runs w + length (ffmpeg_cmds events) - 1)%nat
        = Exited 0).
Proof.
  destruct w as [sh calls runs cap outs lg]. unfold_render.
  destruct (ffmpeg_result env runs) as [[|p1|p1]|] eqn:H1; reduce_render;
    try (eexists; split; [reflexivity|]; cbn [ffmpeg_cmds omap list_omap length];
         replace (runs + 1 - 1)%nat with runs by lia; rewrite H1;
         repeat split; try reflexivity; try lia; try discriminate;
         repeat constructor);
    (destruct (ffmpeg_result env (S runs)) as [[|p2|p2]|] eqn:H2; reduce_render;
     try (eexists; split; [reflexivity|]; cbn [ffmpeg_cmds omap list_omap length];
          replace (runs + 2 - 1)%nat with (S runs) by lia; rewrite H2;
          repeat split; try reflexivity; try lia; try discriminate;
          repeat constructor));
    (destruct (ffmpeg_result env (S (S runs))) as [[|p3|p3]|] eqn:H3; reduce_render;
     eexists; (split; [reflexivity|]); cbn [ffmpeg_cmds omap list_omap length];
     replace (runs + 3 - 1)%nat with (S (S runs)) by lia; rewrite H3;
     repeat split; try reflexivity; try lia; try discriminate;
     repeat constructor).
Qed.

(** X12. Whatever the tiers do, a pass through the cascade leaves no
    caption file behind, runs ffmpeg once, twice or three times, and
    reports success exactly when the last of these runs exits with 0. *)
Theorem render_ends_clean (video_file overlay_text : string) (d : Q) (w : world) :
  let run := edit_video_with_text env video_file overlay_text d w in
  let runs := length (ffmpeg_cmds (events_since (length (log w)) run.2)) in
  caption_file run.2 = None
  /\ (1 <= runs <= 3)%nat
  /\ ffmpeg_runs run.2 = (ffmpeg_runs w + runs)%nat
  /\ (run.1 = true <->
      ffmpeg_result env (ffmpeg_runs w + runs - 1)%nat = Exited 0).
Proof.
  cbv zeta.
  destruct (edit_video_with_text_runs video_file overlay_text d w)
    as (events & Hlog & Hcap & Hruns & Hcount & _ & Hok).
  rewrite (events_since_app _ _ _ Hlog).
  split; [exact Hcap | split; [exact Hcount | split; [exact Hruns | exact Hok]]].
Qed.

End RenderMore.

Section DriverMore.

Context (env : environment) (valid_types : list string).

Local Open Scope Q_scope.

(** X13. Every render of a video is asked to start at half a second of the
    input of that video and to last the duration planned from the probed
    length; when that length is above 0.75 s the cut so ends a quarter of
    a second before the end of the input. *)
Theorem renders_use_planned_window (video_file : string) (w : world) :
  let run := process_single_video env valid_types video_file w in
  let original_duration := probed_duration env (input_path video_file) in
  Forall (fun cmd =>
            cmd_input cmd = input_path video_file
            /\ cmd_ss cmd = start_trim
            /\ cmd_duration cmd = calculate_trimmed_duration original_duration
            /\ (0.75 < original_duration ->
                cmd_ss cmd + cmd_duration cmd == original_duration - end_trim))
    (ffmpeg_cmds (events_since (length (log w)) run.2)).
Proof.
  cbv zeta.
  destruct (process_single_video_shape env valid_types video_file w)
    as [[_ Hnone] | (i & record & rest & Hrender)].
  { rewrite Hnone. constructor. }
  destruct Hrender as (video_type & Htype & Hsel & Hrun).
  pose proof (selection_picked env _ _ _ _ _ Hsel) as (_ & [Hel _] & _).
  assert (Hne : video_type <> "").
  { intros ->.
    pose proof (process_single_video_no_type env valid_types video_file w) as Hno.
    rewrite Htype in Hno. specialize (Hno eq_refl).
    cbv zeta in Hrun. rewrite Hno in Hrun. cbn [fst snd] in Hrun.
    destruct Hrun as (Hlog & _).
    apply (f_equal length) in Hlog. rewrite length_app in Hlog.
    cbn [length] in Hlog. lia. }
  pose proof (process_single_video_run env valid_types video_file video_type w Htype Hne)
    as Heq.
  rewrite Hsel in Heq. cbv zeta in Heq.
  destruct (Py.truthy (Some (Py.strip (cell record "overlay text")))) eqn:Htext;
    cbn [andb] in Heq.
  2:{ rewrite Heq. cbn [snd].
      rewrite (events_since_app w (after_pick i true w)
                 [GetAllRecords; UpdateCell (i + 2) 1 "TRUE"]) by reflexivity.
      constructor. }
  rewrite Heq.
  destruct (edit_video_with_text_runs env video_file
              (Py.strip (cell record "overlay text"))
              (calculate_trimmed_duration (probed_duration env (input_path video_file)))
              (after_probe video_file (after_pick i true w)))
    as (events & Hlog & _ & _ & _ & Hcmds & _).
  rewrite (events_since_app w _
             ([GetAllRecords; UpdateCell (i + 2) 1 "TRUE";
               Ffprobe (input_path video_file)] ++ events)).
  2:{ rewrite Hlog. cbn [after_probe after_pick log]. rewrite <- !app_assoc.
      reflexivity. }
  cbn [app ffmpeg_cmds omap list_omap]. fold (ffmpeg_cmds events).
  eapply Forall_impl; [exact Hcmds|].
  intros cmd (Hin & Hss & Hd). split; [exact Hin | split; [exact Hss | split;
    [exact Hd|]]].
  intros Hlong. rewrite Hss, Hd.
  unfold calculate_trimmed_duration, start_trim, end_trim in *.
  destruct (Qle_bool _ 0) eqn:Hshort.
  - apply Qle_bool_iff in Hshort. lra.
  - ring.
Qed.

End DriverMore.
(** ** The batch: captions consumed, videos accounted for *)

Section Batch.

Context (env : environment) (valid_types : list string).

(** X14. A free row whose overlay text is blank is consumed without a
    render: the selector marks the row and returns the empty text, which
    the driver takes for no text; the video is reported as failed, and
    neither the probe nor ffmpeg is run. *)
Theorem blank_caption_consumed (video_file video_type : string) (w : world)
    (i : nat) (record : gmap string string) :
  extract_type_from_filename valid_types (PurePath.stem video_file) = Some video_type ->
  video_type <> "" ->
  client_raises env (client_calls w) = false ->
  client_raises env (S (client_calls w)) = false ->
  first_eligible video_type (rows (sheet w)) i record ->
  Py.strip (cell record "overlay text") = "" ->
  let run := process_single_video env valid_types video_file w in
  run.1 = false
  /\ sheet run.2 = update_cell (i + 2) 1 "TRUE" (sheet w)
  /\ events_since (length (log w)) run.2
     = [GetAllRecords; UpdateCell (i + 2) 1 "TRUE"]
  /\ output_files run.2 = output_files w.
Proof.
  intros Htype Hne Hget Hput (Hi & Hel & Hfirst) Hblank. cbv zeta.
  assert (Hscan : scan_records video_type 0 (rows (sheet w)) = Some (i, record)).
  { apply scan_records_some. exists i.
    split; [reflexivity | split; [assumption | split; assumption]]. }
  rewrite (process_single_video_run env valid_types video_file video_type w Htype Hne).
  unfold selection_of. rewrite Hget, Hscan, Hput. cbn [negb]. cbv zeta.
  rewrite Hblank. cbn [Py.truthy andb fst snd after_pick sheet output_files].
  split; [reflexivity | split; [reflexivity | split; [|reflexivity]]].
  apply events_since_app. reflexivity.
Qed.

(** What one video does to the sheet, to the log and to the output
    directory. *)
Lemma process_single_video_effects (video_file : string) (w : world) :
  let run := process_single_video env valid_types video_file w in
  exists events,
    log run.2 = (log w ++ events)%list
    /\ output_files run.2
       = (if run.1 then output_files w ++ [output_path video_file]
          else output_files w)%list
    /\ (run.1 = false /\ cell_writes events = [] /\ sheet run.2 = sheet w
        \/ exists video_type i record written,
             selection_of env video_type w = Picked i record written
             /\ cell_writes events = [((i + 2)%nat, 1%nat, "TRUE")]
             /\ sheet run.2
                = (if written then update_cell (i + 2) 1 "TRUE" (sheet w)
                   else sheet w)).
Proof.
  cbv zeta.
  destruct (Py.truthy (extract_type_from_filename valid_types (PurePath.stem video_file)))
    eqn:Htype.
  2:{ rewrite (process_single_video_no_type env valid_types) by assumption.
      exists []. cbn [fst snd]. rewrite app_nil_r.
      split; [reflexivity | split; [reflexivity | left]]. repeat split. }
  apply truthy_some in Htype as (video_type & Htype & Hne).
  rewrite (process_single_video_run env valid_types video_file video_type w Htype Hne).
  destruct (selection_of env video_type w) as [| |i record written] eqn:Hsel.
  - exists [GetAllRecords]. cbn [fst snd after_read log output_files sheet].
    split; [reflexivity | split; [reflexivity | left]]. repeat split.
  - exists [GetAllRecords]. cbn [fst snd after_read log output_files sheet].
    split; [reflexivity | split; [reflexivity | left]]. repeat split.
  - cbv zeta.
    destruct (written && Py.truthy (Some (Py.strip (cell record "overlay text"))))
      eqn:Hgo.
    + apply andb_true_iff in Hgo as [-> _].
      destruct (edit_video_with_text_summary env video_file
                  (Py.strip (cell record "overlay text"))
                  (calculate_trimmed_duration
                     (probed_duration env (input_path video_file)))
                  (after_probe video_file (after_pick i true w)))
        as (rest & Hlog & Hsheet & Hwrites & _ & Hfiles).
      exists ([GetAllRecords; UpdateCell (i + 2) 1 "TRUE";
               Ffprobe (input_path video_file)] ++ rest)%list.
      split; [|split; [exact Hfiles | right]].
      * rewrite Hlog. cbn [after_probe after_pick log]. rewrite <- !app_assoc.
        reflexivity.
      * exists video_type, i, record, true.
        split; [exact Hsel | split; [|exact Hsheet]].
        unfold cell_writes. rewrite omap_app. fold (cell_writes rest).
        rewrite Hwrites. reflexivity.
    + exists [GetAllRecords; UpdateCell (i + 2) 1 "TRUE"].
      cbn [fst snd after_pick log output_files sheet].
      split; [reflexivity | split; [reflexivity | right]].
      exists video_type, i, record, written.
      split; [exact Hsel | split; reflexivity].
Qed.

Lemma process_all_accounts
    (video_files successful failed : list string) (w : world) :
  let run := process_all env valid_types video_files successful failed w in
  exists done lost,
    run.1 = ((successful ++ done)%list, (failed ++ lost)%list)
    /\ (done ++ lost)%list ≡ₚ video_files
    /\ done `sublist_of` video_files
    /\ lost `sublist_of` video_files
    /\ output_files run.2 = (output_files w ++ map output_path done)%list.
Proof.
  cbv zeta. revert successful failed w.
  induction video_files as [|video_file later IH]; intros successful failed w.
  - exists [], []. cbn [process_all ret fst snd map]. rewrite !app_nil_r.
    repeat split; constructor.
  - cbn [process_all]. unfold bind.
    destruct (process_single_video_effects video_file w) as (events & _ & Hfiles & _).
    destruct (process_single_video env valid_types video_file w) as [ok w1].
    cbn [fst snd] in Hfiles. destruct ok.
    + destruct (IH (successful ++ [video_file])%list failed w1)
        as (done & lost & Hrun & Hperm & Hdone & Hlost & Hout).
      exists (video_file :: done), lost.
      split; [|split; [|split; [|split]]].
      * rewrite Hrun, <- app_assoc. reflexivity.
      * cbn [app]. now apply Permutation_skip.
      * now apply sublist_skip.
      * now apply sublist_cons.
      * rewrite Hout, Hfiles, <- app_assoc. reflexivity.
    + destruct (IH successful (failed ++ [video_file])%list w1)
        as (done & lost & Hrun & Hperm & Hdone & Hlost & Hout).
      exists done, (video_file :: lost).
      split; [|split; [|split; [|split]]].
      * rewrite Hrun, <- app_assoc. reflexivity.
      * rewrite <- Hperm. symmetry. apply Permutation_middle.
      * now apply sublist_cons.
      * now apply sublist_skip.
      * rewrite Hout, Hfiles. reflexivity.
Qed.

(** X15. The batch loop accounts for every video once: the names it adds
    to the two lists are, each list in the order of the files, a split of
    the files it was given, and the output directory gains the outputs of
    the successful videos, in that order, and nothing else. *)
Theorem batch_accounts_for_every_video
    (video_files successful failed : list string) (w : world) :
  let run := process_all env valid_types video_files successful failed w in
  exists done lost,
    run.1 = ((successful ++ done)%list, (failed ++ lost)%list)
    /\ (done ++ lost)%list ≡ₚ video_files
    /\ done `sublist_of` video_files
    /\ lost `sublist_of` video_files
    /\ output_files run.2 = (output_files w ++ map output_path done)%list.
Proof. apply process_all_accounts. Qed.

(** One video leaves a row alone whose used flag does not read [FALSE]. *)
Lemma process_single_video_skips (video_file : string) (w : world) (i : nat)
    (record : gmap string string) (events : list event) :
  rows (sheet w) !! i = Some record ->
  Py.upper (Py.strip (cell record "used?")) <> "FALSE" ->
  log (process_single_video env valid_types video_file w).2 = (log w ++ events)%list ->
  ((i + 2)%nat ∉ map row_of (cell_writes events))
  /\ rows (sheet (process_single_video env valid_types video_file w).2) !! i
     = Some record.
Proof.
  intros Hi Hflag Hlog.
  destruct (process_single_video_effects video_file w)
    as (events' & Hlog' & _ & Heffect).
  cbv zeta in *. rewrite Hlog in Hlog'. apply app_inv_head in Hlog' as <-.
  destruct Heffect as [(_ & -> & ->) | (video_type & j & r & written & Hsel & -> & ->)].
  - split; [apply not_elem_of_nil | exact Hi].
  - apply (selection_picked env) in Hsel as (Hj & [_ Hused] & _).
    assert (Hne : j <> i).
    { intros ->. rewrite Hi in Hj. injection Hj as ->. contradiction. }
    split.
    + cbn [map fst row_of]. intros Hin. apply list_elem_of_singleton in Hin. lia.
    + destruct written; [|exact Hi].
      rewrite (update_cell_other_row _ _ _ _ Hne). exact Hi.
Qed.

(** X16. With the used flag in column 1 and a client that does not raise,
    no caption row is handed out twice in a batch: the writes of the loop
    go to pairwise different rows, each sets column 1 to [TRUE], and every
    video that succeeded has consumed a row of its own. *)
Theorem batch_never_reuses_a_row
    (video_files successful failed : list string) (w : world) :
  headers (sheet w) !! 0%nat = Some "used?" ->
  (forall k, client_raises env k = false) ->
  let run := process_all env valid_types video_files successful failed w in
  let writes := cell_writes (events_since (length (log w)) run.2) in
  NoDup (map row_of writes)
  /\ Forall (fun write => write.1.2 = 1%nat /\ write.2 = "TRUE") writes
  /\ (length run.1.1 <= length successful + length writes)%nat.
Proof.
  intros Hlayout Hcalm. cbv zeta.
  assert (Hgen : exists events,
            log (process_all env valid_types video_files successful failed w).2
            = (log w ++ events)%list
            /\ NoDup (map row_of (cell_writes events))
            /\ Forall (fun write => write.1.2 = 1%nat /\ write.2 = "TRUE")
                 (cell_writes events)
            /\ (length (process_all env valid_types video_files successful failed w).1.1
                <= length successful + length (cell_writes events))%nat
            /\ forall i record,
                 rows (sheet w) !! i = Some record ->
                 Py.upper (Py.strip (cell record "used?")) <> "FALSE" ->
                 (i + 2)%nat ∉ map row_of (cell_writes events)).
  { revert successful failed w Hlayout.
    induction video_files as [|video_file later IH]; intros successful failed w Hlayout.
    - exists []. cbn [process_all ret fst snd cell_writes omap list_omap map length].
      rewrite app_nil_r.
      split; [reflexivity | split; [constructor | split; [constructor | split;
        [lia|]]]].
      intros i record _ _. apply not_elem_of_nil.
    - cbn [process_all]. unfold bind.
      destruct (process_single_video_effects video_file w)
        as (ev1 & Hlog1 & _ & Heffect).
      pose proof (fun i record Hi Hflag =>
                    process_single_video_skips video_file w i record ev1 Hi Hflag Hlog1)
        as Hskip1.
      destruct (process_single_video env valid_types video_file w) as [ok w1].
      cbn [fst snd] in Hlog1, Heffect, Hskip1.
      assert (Hlayout1 : headers (sheet w1) !! 0%nat = Some "used?").
      { destruct Heffect as [(_ & _ & ->) | (vt & j & r & written & _ & _ & ->)];
          [exact Hlayout|].
        destruct written; [|exact Hlayout]. now rewrite update_cell_headers. }
      assert (Hcount : ((if ok then 1 else 0) <= length (cell_writes ev1))%nat).
      { destruct Heffect as [(-> & _) | (vt & j & r & written & _ & -> & _)];
          [lia | destruct ok; cbn [length]; lia]. }
      set (successful1 := if ok then (successful ++ [video_file])%list else successful).
      set (failed1 := if ok then failed else (failed ++ [video_file])%list).
      assert (Hstep : (if ok
                       then process_all env valid_types later
                              (successful ++ [video_file]) failed
                       else process_all env valid_types later successful
                              (failed ++ [video_file])) w1
                      = process_all env valid_types later successful1 failed1 w1)
        by (subst successful1 failed1; destruct ok; reflexivity).
      rewrite Hstep.
      destruct (IH successful1 failed1 w1 Hlayout1)
        as (ev2 & Hlog2 & Hnodup2 & Hshape2 & Hlen2 & Hskip2).
      exists (ev1 ++ ev2)%list.
      assert (Hwrites : cell_writes (ev1 ++ ev2)
                        = (cell_writes ev1 ++ cell_writes ev2)%list)
        by apply omap_app.
      rewrite Hwrites, map_app, length_app.
      assert (Hlen1 : (length successful1 <= length successful
                                             + (if ok then 1 else 0))%nat).
      { subst successful1. destruct ok; [rewrite length_app; cbn [length]|]; lia. }
      split; [rewrite Hlog2, Hlog1; now rewrite app_assoc|].
      destruct Heffect as [(_ & Hnone & Hsheet)
                          | (vt & j & r & written & Hsel & Hone & Hsheet)].
      + rewrite Hnone in *. cbn [map app length] in *.
        split; [exact Hnodup2 | split; [exact Hshape2 | split; [lia|]]].
        intros i record Hi Hflag. apply (Hskip2 i record); [|exact Hflag].
        rewrite Hsheet. exact Hi.
      + pose proof (selection_picked env _ _ _ _ _ Hsel)
          as (Hj & [_ Hused] & _ & _ & Hwritten).
        rewrite Hcalm in Hwritten. cbn [negb] in Hwritten. subst written.
        rewrite Hone in *. cbn [map app length fst row_of] in *.
        assert (Hmarked : rows (sheet w1) !! j = Some (<["used?" := "TRUE"]> r)).
        { rewrite Hsheet, (update_cell_rows _ _ "used?") by assumption.
          rewrite list_lookup_alter_eq, Hj. reflexivity. }
        assert (Hflag1 : Py.upper (Py.strip (cell (<["used?" := "TRUE"]> r) "used?"))
                         <> "FALSE").
        { unfold cell. rewrite lookup_insert_eq. discriminate. }
        split; [|split; [|split; [lia|]]].
        * apply NoDup_cons. split; [|exact Hnodup2].
          exact (Hskip2 j _ Hmarked Hflag1).
        * constructor; [split; reflexivity | exact Hshape2].
        * intros i record Hi Hflag.
          assert (Hne : j <> i).
          { intros ->. rewrite Hi in Hj. injection Hj as ->. contradiction. }
          intros Hin. apply elem_of_cons in Hin as [Hin | Hin]; [lia|].
          apply (Hskip2 i record); [|exact Hflag | exact Hin].
          rewrite Hsheet, (update_cell_other_row _ _ _ _ Hne). exact Hi. }
  destruct Hgen as (events & Hlog & Hnodup & Hshape & Hlen & _).
  rewrite (events_since_app _ _ _ Hlog).
  split; [exact Hnodup | split; [exact Hshape | exact Hlen]].
Qed.

End Batch.

Lemma sample_blank_row_first :
  first_eligible "Sad" (rows MoreSamples.blank_caption) 0
    (Sample.caption_row "FALSE" "FALSE" "Sad" "   ").
Proof.
  split; [reflexivity | split; [split; reflexivity|]].
  intros i' record' Hlt. lia.
Defined.

Lemma blank_caption_consumed_witness :
  (process_single_video Sample.all_succeed vocabulary "sad_01.mp4"
     (Sample.start MoreSamples.blank_caption)).1 = false
  /\ events_since 0
       (process_single_video Sample.all_succeed vocabulary "sad_01.mp4"
          (Sample.start MoreSamples.blank_caption)).2
     = [GetAllRecords; UpdateCell 2 1 "TRUE"].
Proof.
  pose proof (blank_caption_consumed Sample.all_succeed vocabulary "sad_01.mp4" "Sad"
                (Sample.start MoreSamples.blank_caption) 0 _
                eq_refl ltac:(discriminate) eq_refl eq_refl
                sample_blank_row_first eq_refl) as H.
  cbv zeta in H. split; [exact (proj1 H) | exact (proj1 (proj2 (proj2 H)))].
Defined.

Lemma batch_never_reuses_a_row_witness :
  NoDup (map row_of
           (cell_writes
              (events_since 0
                 (process_all Sample.all_succeed vocabulary
                    ["sad_01.mp4"; "sad_02.mp4"; "sad_03.mp4"] [] []
                    (Sample.start MoreSamples.four_rows)).2))).
Proof.
  exact (proj1 (batch_never_reuses_a_row Sample.all_succeed vocabulary
                  ["sad_01.mp4"; "sad_02.mp4"; "sad_03.mp4"] [] []
                  (Sample.start MoreSamples.four_rows) eq_refl (fun _ => eq_refl))).
Defined.
(** ** Sheet statistics *)

Section Statistics.

Implicit Types (records : list (gmap string string)) (key : string).
Implicit Types (type_stats : list (string * type_stat)).

Lemma count_type_keys (video_type : string) (used : bool) type_stats :
  (count_type video_type used type_stats).*1
  = (type_stats.*1
     ++ if bool_decide (video_type ∈ type_stats.*1) then [] else [video_type])%list.
Proof.
  induction type_stats as [|[k stats] later IH]; [reflexivity|].
  cbn [count_type fmap list_fmap fst].
  destruct (String.eqb_spec k video_type) as [-> | Hne].
  - rewrite bool_decide_eq_true_2 by apply list_elem_of_here.
    cbn [fmap list_fmap fst]. now rewrite app_nil_r.
  - cbn [fmap list_fmap fst app]. change (list_fmap _ _ fst) with (fmap (M:=list) (@fst string type_stat)).
    rewrite IH. f_equal. f_equal.
    rewrite (bool_decide_ext (video_type ∈ later.*1) (video_type ∈ k :: later.*1));
      [reflexivity|].
    rewrite elem_of_cons. split; [tauto|].
    intros [Heq | Hin]; [congruence | exact Hin].
Qed.

Lemma count_type_map (video_type : string) (used : bool) type_stats :
  (list_to_map (count_type video_type used type_stats) : gmap string type_stat)
  = <[video_type :=
        count_row used
          (default (TypeStat 0 0 0)
             ((list_to_map type_stats : gmap string type_stat) !! video_type))]>
      (list_to_map type_stats).
Proof.
  induction type_stats as [|[k stats] later IH]; [reflexivity|].
  cbn [count_type].
  destruct (String.eqb_spec k video_type) as [-> | Hne].
  - rewrite !list_to_map_cons, lookup_insert_eq, insert_insert_eq. reflexivity.
  - rewrite !list_to_map_cons, IH, lookup_insert_ne by assumption.
    now apply insert_insert_ne.
Qed.

Lemma count_type_nodup (video_type : string) (used : bool) type_stats :
  NoDup type_stats.*1 -> NoDup (count_type video_type used type_stats).*1.
Proof.
  intros Hnodup. rewrite count_type_keys.
  destruct (bool_decide (video_type ∈ type_stats.*1)) eqn:Hin.
  - now rewrite app_nil_r.
  - apply bool_decide_eq_false in Hin. apply NoDup_app.
    split; [exact Hnodup | split; [|apply NoDup_singleton]].
    intros x Hx Hx'. apply list_elem_of_singleton in Hx'. now subst.
Qed.

Lemma count_record_lookup type_stats (record : gmap string string) key :
  (list_to_map (count_record type_stats record) : gmap string type_stat) !! key
  = if has_type key record
    then Some (count_row (marked_used record)
                 (default (TypeStat 0 0 0)
                    ((list_to_map type_stats : gmap string type_stat) !! key)))
    else (list_to_map type_stats : gmap string type_stat) !! key.
Proof.
  unfold count_record, has_type, marked_used. rewrite count_type_map.
  destruct (String.eqb_spec (Py.strip (cell record "type")) key) as [<- | Hne].
  - now rewrite lookup_insert_eq.
  - now rewrite lookup_insert_ne.
Qed.

(** The counts of a key after the loop, from its counts before. *)
Lemma fold_count_record records type_stats key :
  let before := default (TypeStat 0 0 0)
                  ((list_to_map type_stats : gmap string type_stat) !! key) in
  let after := (list_to_map (fold_left count_record records type_stats)
                : gmap string type_stat) !! key in
  default (TypeStat 0 0 0) after
  = TypeStat
      (stat_total before + count_rows (has_type key) records)
      (stat_used before
       + count_rows (fun record => has_type key record && marked_used record) records)
      (stat_available before
       + count_rows (fun record => has_type key record && negb (marked_used record))
           records)
  /\ (is_Some after <->
      is_Some ((list_to_map type_stats : gmap string type_stat) !! key)
      \/ (0 < count_rows (has_type key) records)%nat).
Proof.
  cbv zeta. revert type_stats.
  induction records as [|record later IH]; intros type_stats.
  - cbn [fold_left count_rows List.filter length]. rewrite !Nat.add_0_r. split.
    + now destruct (default _ _).
    + split; [now left | intros [H | H]; [exact H | lia]].
  - cbn [fold_left]. destruct (IH (count_record type_stats record)) as [Hcount Hsome].
    rewrite Hcount, Hsome, count_record_lookup. clear Hcount Hsome IH.
    unfold count_rows. cbn [List.filter].
    destruct (has_type key record); cbn [andb default]; unfold id.
    + split.
      * destruct (marked_used record);
          cbn [negb count_row stat_total stat_used stat_available length];
          f_equal; lia.
      * cbn [length]. split; [intros _; right; lia|].
        intros _. left. eexists. reflexivity.
    + split; reflexivity.
Qed.

Lemma type_statistics_nodup records type_stats :
  NoDup type_stats.*1 -> NoDup (fold_left count_record records type_stats).*1.
Proof.
  revert type_stats. induction records as [|record later IH]; intros type_stats Hnodup.
  - exact Hnodup.
  - cbn [fold_left]. apply IH. now apply count_type_nodup.
Qed.

Lemma type_statistics_entry records key (stats : type_stat) :
  (key, stats) ∈ type_statistics records ->
  stats
  = TypeStat
      (count_rows (has_type key) records)
      (count_rows (fun record => has_type key record && marked_used record) records)
      (count_rows (fun record => has_type key record && negb (marked_used record))
         records)
  /\ (0 < count_rows (has_type key) records)%nat.
Proof.
  intros Hin. unfold type_statistics in Hin.
  apply elem_of_list_to_map in Hin; [|apply type_statistics_nodup; constructor].
  destruct (fold_count_record records [] key) as [Hcount Hsome].
  cbv zeta in *. rewrite Hin in Hcount, Hsome. cbn [default] in Hcount.
  rewrite list_to_map_nil, lookup_empty in Hcount, Hsome. cbn [default] in Hcount.
  split; [exact Hcount|].
  destruct (proj1 Hsome (ltac:(eexists; reflexivity))) as [[x Hx] | Hpos];
    [discriminate | exact Hpos].
Qed.

Lemma count_rows_split (p q : gmap string string -> bool) records :
  count_rows p records
  = (count_rows (fun record => p record && q record) records
     + count_rows (fun record => p record && negb (q record)) records)%nat.
Proof.
  unfold count_rows. induction records as [|record later IH]; [reflexivity|].
  cbn [List.filter]. destruct (p record), (q record); cbn [andb negb length]; lia.
Qed.

(** X17. The statistics hold one entry for each type that occurs in the
    sheet, trimmed and as it is spelled.  The total of an entry is the
    number of rows of that type, its used count the number of those whose
    flag reads [TRUE], and every other row of the type counts as
    available; so the total is the sum of the two and is never zero. *)
Theorem type_statistics_counts records :
  let type_stats := type_statistics records in
  NoDup type_stats.*1
  /\ (forall record, record ∈ records ->
        Py.strip (cell record "type") ∈ type_stats.*1)
  /\ forall key (stats : type_stat), (key, stats) ∈ type_stats ->
       stat_total stats = count_rows (has_type key) records
       /\ stat_used stats
          = count_rows (fun record => has_type key record && marked_used record) records
       /\ stat_available stats
          = count_rows (fun record => has_type key record && negb (marked_used record))
              records
       /\ stat_total stats = (stat_used stats + stat_available stats)%nat
       /\ (0 < stat_total stats)%nat.
Proof.
  cbv zeta. split; [|split].
  - apply type_statistics_nodup. constructor.
  - intros record Hin.
    destruct (fold_count_record records [] (Py.strip (cell record "type")))
      as [_ Hsome].
    cbv zeta in Hsome.
    assert (Hpos : (0 < count_rows (has_type (Py.strip (cell record "type"))) records)%nat).
    { unfold count_rows.
      assert (Hmem : record ∈ List.filter (has_type (Py.strip (cell record "type")))
                                records).
      { apply list_elem_of_In, filter_In. split; [now apply list_elem_of_In|].
        unfold has_type. apply String.eqb_refl. }
      destruct (List.filter _ records); [inversion Hmem | cbn [length]; lia]. }
    destruct (proj2 Hsome (or_intror Hpos)) as [stats Hstats].
    apply elem_of_list_to_map_2 in Hstats.
    apply list_elem_of_fmap. exists (Py.strip (cell record "type"), stats).
    split; [reflexivity | exact Hstats].
  - intros key stats Hin.
    destruct (type_statistics_entry records key stats Hin) as [-> Hpos].
    cbn [stat_total stat_used stat_available].
    split; [reflexivity | split; [reflexivity | split; [reflexivity | split]]].
    + apply count_rows_split.
    + exact Hpos.
Qed.



End Statistics.



(** The row with an empty flag makes the count too high: the statistics
    of the sample sheet show one available caption for [Sad], and the
    selector has none to hand out. *)
Example available_count_too_high :
  statistics_lines (type_statistics (rows Sample.captions))
  = [("Sad", 1%nat, 2%nat); ("sad", 1%nat, 1%nat)]
  /\ count_rows (free_for "Sad") (rows Sample.captions) = 0%nat.
Proof. split; reflexivity. Qed.
(** ** The sheet id: configuration file and console *)

Section SheetId.

Lemma rstrip_idempotent (s : string) : Py.rstrip (Py.rstrip s) = Py.rstrip s.
Proof.
  induction s as [|c s IH]; [reflexivity|].
  cbn [Py.rstrip]. destruct (Py.rstrip s) as [|a r] eqn:Hrest.
  - destruct (Py.isspace c) eqn:Hc; [reflexivity|].
    cbn [Py.rstrip]. now rewrite Hc.
  - change (Py.rstrip (String c (String a r)))
      with (match Py.rstrip (String a r) with
            | "" => if Py.isspace c then "" else String c ""
            | String _ _ as rest => String c rest
            end).
    now rewrite IH.
Qed.

Lemma rstrip_keeps_head (c : ascii) (s : string) :
  Py.isspace c = false -> Py.rstrip (String c s) = String c (Py.rstrip s).
Proof.
  intros Hc. cbn [Py.rstrip]. rewrite Hc. now destruct (Py.rstrip s).
Qed.

Lemma lstrip_head (s : string) :
  match Py.lstrip s with
  | "" => True
  | String c _ => Py.isspace c = false
  end.
Proof.
  induction s as [|c s IH]; [exact I|].
  cbn [Py.lstrip]. destruct (Py.isspace c) eqn:Hc; [exact IH | exact Hc].
Qed.

(** [strip] gives a text that [strip] leaves as it is. *)
Lemma strip_idempotent (s : string) : Py.strip (Py.strip s) = Py.strip s.
Proof.
  unfold Py.strip. pose proof (lstrip_head s) as Hhead.
  destruct (Py.lstrip s) as [|c rest]; [reflexivity|].
  rewrite (rstrip_keeps_head _ _ Hhead).
  cbn [Py.lstrip]. rewrite Hhead.
  rewrite (rstrip_keeps_head _ _ Hhead). now rewrite rstrip_idempotent.
Qed.

Lemma truthy_string (s : string) : Py.truthy (Some s) = true <-> s <> "".
Proof. destruct s; cbn; split; congruence. Qed.

(** X19. An id that the program hands out is not empty and carries no
    white space around it.  Once it stands in the configuration file, as
    found there or as saved by a write that went through, a later call that
    can read the file returns the same id without asking, whatever is
    typed, and leaves the file as it is. *)
Theorem saved_sheet_id_is_reused (io again : console)
    (config config' : option string) (sheet_id : string) :
  get_sheet_id_from_user io config = (Some sheet_id, config') ->
  sheet_id <> "" /\ Py.strip sheet_id = sheet_id
  /\ (failed_write io = None -> read_raises again = false ->
      get_sheet_id_from_user again config' = (Some sheet_id, config')).
Proof.
  unfold get_sheet_id_from_user.
  assert (Hreuse : forall content,
            Py.truthy (Some (Py.strip content)) = true ->
            read_raises again = false ->
            (let saved :=
               if read_raises again then None
               else let saved_id := Py.strip content in
                    if Py.truthy (Some saved_id) then Some saved_id else None in
             match saved with
             | Some saved_id => (Some saved_id, Some content)
             | None =>
                 let sheet_id := Py.strip (typed again) in
                 if Py.truthy (Some sheet_id) then
                   (Some sheet_id,
                    match failed_write again with
                    | None => Some sheet_id
                    | Some left_behind => left_behind
                    end)
                 else (None, Some content)
             end) = (Some (Py.strip content), Some content)).
  { intros content Htruthy Hread. cbv zeta. now rewrite Hread, Htruthy. }
  destruct config as [content|].
  - destruct (read_raises io) eqn:Hread; cbv zeta.
    + destruct (Py.truthy (Some (Py.strip (typed io)))) eqn:Htyped; [|discriminate].
      intros [= <- <-]. apply truthy_string in Htyped as Hne.
      split; [exact Hne | split; [apply strip_idempotent|]].
      intros -> Hagain. cbv zeta in Hreuse.
      rewrite (Hreuse (Py.strip (typed io)));
        [now rewrite strip_idempotent | now rewrite strip_idempotent | exact Hagain].
    + destruct (Py.truthy (Some (Py.strip content))) eqn:Hsaved.
      * intros [= <- <-]. apply truthy_string in Hsaved as Hne.
        split; [exact Hne | split; [apply strip_idempotent|]].
        intros _ Hagain. now apply Hreuse.
      * destruct (Py.truthy (Some (Py.strip (typed io)))) eqn:Htyped; [|discriminate].
        intros [= <- <-]. apply truthy_string in Htyped as Hne.
        split; [exact Hne | split; [apply strip_idempotent|]].
        intros -> Hagain. cbv zeta in Hreuse.
        rewrite (Hreuse (Py.strip (typed io)));
          [now rewrite strip_idempotent | now rewrite strip_idempotent | exact Hagain].
  - cbv zeta.
    destruct (Py.truthy (Some (Py.strip (typed io)))) eqn:Htyped; [|discriminate].
    intros [= <- <-]. apply truthy_string in Htyped as Hne.
    split; [exact Hne | split; [apply strip_idempotent|]].
    intros -> Hagain. cbv zeta in Hreuse.
    rewrite (Hreuse (Py.strip (typed io)));
      [now rewrite strip_idempotent | now rewrite strip_idempotent | exact Hagain].
Qed.

End SheetId.

Lemma saved_sheet_id_is_reused_witness :
  get_sheet_id_from_user (Console false "another id" None) (Some "sheet-1")
  = (Some "sheet-1", Some "sheet-1").
Proof.
  exact (proj2 (proj2 (saved_sheet_id_is_reused
                         (Console false " sheet-1 " None)
                         (Console false "another id" None)
                         None (Some "sheet-1") "sheet-1" eq_refl))
           eq_refl eq_refl).
Defined.

(** A file that holds only white space does not count as a saved id, and
    an empty answer gives no id and writes nothing. *)
Example blank_config_asks_again :
  get_sheet_id_from_user (Console false "typed-id" None) (Some "  ")
  = (Some "typed-id", Some "typed-id")
  /\ get_sheet_id_from_user (Console false "   " None) (Some "  ")
     = (None, Some "  ").
Proof. split; reflexivity. Qed.
(** ** The session: what [run] checks before it acts *)

Section SessionRun.

Context (env : environment) (valid_types : list string).

Lemma check_sheet_format_run (w : world) :
  Session.check_sheet_format env w
  = (negb (client_raises env (client_calls w)) && check_sheet_format (sheet w),
     after_read w).
Proof.
  unfold Session.check_sheet_format, bind, ret, client_call, after_read.
  destruct (client_raises env (client_calls w)); reflexivity.
Qed.

Lemma show_sheet_statistics_run (w : world) :
  (Session.show_sheet_statistics env w).2 = after_read w.
Proof.
  unfold Session.show_sheet_statistics, bind, ret, worksheet_get_all_records,
    client_call, after_read.
  destruct (client_raises env (client_calls w)); reflexivity.
Qed.

(** The ways through [run]. *)
Lemma run_cases (s : setup) (w : world) :
  let result := Session.run env valid_types s w in
  let ready :=
    check_dependencies s && setup_google_sheets s && (connect_to_sheet s).1 in
  let format_ok :=
    negb (client_raises env (client_calls w)) && check_sheet_format (sheet w) in
  let video_files := find_all_video_files (Some (default [] (listing s))) in
  let batch :=
    process_all env valid_types video_files [] [] (after_read (after_read w)) in
  if ready then
    if format_ok then
      match video_files with
      | [] => result.1.1 = false /\ result.2 = after_read (after_read w)
      | _ :: _ =>
          result.1.1 = negb (length batch.1.1 =? 0)%nat /\ result.2 = batch.2
      end
    else result.1.1 = false /\ result.2 = after_read w
  else result.1.1 = false /\ result.2 = w.
Proof.
  cbv zeta. unfold Session.run.
  destruct (check_dependencies s); cbn [negb andb]; [|split; reflexivity].
  destruct (setup_google_sheets s); cbn [negb andb]; [|split; reflexivity].
  destruct (connect_to_sheet s) as [connected config]. cbn [fst].
  destruct connected; cbn [negb]; [|split; reflexivity].
  unfold bind, ret. rewrite check_sheet_format_run.
  destruct (negb (client_raises env (client_calls w)) && check_sheet_format (sheet w));
    cbn [negb]; [|split; reflexivity].
  pose proof (show_sheet_statistics_run (after_read w)) as Hstats.
  destruct (Session.show_sheet_statistics env (after_read w)) as [lines w2].
  cbn [snd] in Hstats. subst w2.
  destruct (find_all_video_files (Some (default [] (listing s)))) as [|first later];
    [split; reflexivity|].
  destruct (process_all env valid_types (first :: later) [] []
              (after_read (after_read w))) as [lists w3].
  split; reflexivity.
Qed.

(** X20. When [run] reports success, the sheet had passed the check of
    its format, and the input directory holds a video whose output file
    was written. *)
Theorem run_success_means_output (s : setup) (w : world) :
  let result := Session.run env valid_types s w in
  result.1.1 = true ->
  check_sheet_format (sheet w) = true
  /\ exists name,
       name ∈ default [] (listing s)
       /\ is_video_file name = true
       /\ output_path name ∈ output_files result.2.
Proof.
  cbv zeta. intros Hok. pose proof (run_cases s w) as Hrun. cbv zeta in Hrun.
  destruct (check_dependencies s && setup_google_sheets s && (connect_to_sheet s).1);
    [|destruct Hrun as [Hfalse _]; congruence].
  destruct (negb (client_raises env (client_calls w)) && check_sheet_format (sheet w))
    eqn:Hformat; [|destruct Hrun as [Hfalse _]; congruence].
  apply andb_true_iff in Hformat as [_ Hformat]. split; [exact Hformat|].
  pose proof (sorted_perm (List.filter is_video_file (default [] (listing s))))
    as Hperm.
  cbn [find_all_video_files] in Hrun.
  destruct (sorted (List.filter is_video_file (default [] (listing s))))
    as [|first later] eqn:Hfiles; [destruct Hrun as [Hfalse _]; congruence|].
  destruct Hrun as [Hresult Hworld]. rewrite Hok in Hresult. rewrite Hworld.
  destruct (process_all_accounts env valid_types (first :: later) [] []
              (after_read (after_read w)))
    as (done & lost & Hlists & _ & Hdone & _ & Hout).
  rewrite Hlists in Hresult. cbn [fst app] in Hresult.
  destruct done as [|name done]; [discriminate|].
  exists name.
  assert (Hin : name ∈ List.filter is_video_file (default [] (listing s))).
  { rewrite <- Hperm. eapply elem_of_sublist; [apply list_elem_of_here | exact Hdone]. }
  apply list_elem_of_In, filter_In in Hin as [Hin Hvideo].
  split; [now apply list_elem_of_In | split; [exact Hvideo|]].
  rewrite Hout. apply elem_of_app. right. apply list_elem_of_here.
Qed.

(** X21. [run] writes no cell and starts no render unless the
    dependencies are there, the client is set up and connected, and the
    sheet, read without a fault of the client, has passed the check of its
    format. *)
Theorem run_checks_before_it_acts (s : setup) (w : world) :
  let result := Session.run env valid_types s w in
  let events := events_since (length (log w)) result.2 in
  cell_writes events <> [] \/ ffmpeg_cmds events <> [] ->
  check_dependencies s = true
  /\ setup_google_sheets s = true
  /\ (connect_to_sheet s).1 = true
  /\ client_raises env (client_calls w) = false
  /\ check_sheet_format (sheet w) = true.
Proof.
  cbv zeta. intros Hacts. pose proof (run_cases s w) as Hrun. cbv zeta in Hrun.
  destruct (check_dependencies s); cbn [andb] in Hrun.
  2:{ destruct Hrun as [_ Hworld]. rewrite Hworld, events_since_same in Hacts.
      destruct Hacts as [H | H]; now contradiction H. }
  destruct (setup_google_sheets s); cbn [andb] in Hrun.
  2:{ destruct Hrun as [_ Hworld]. rewrite Hworld, events_since_same in Hacts.
      destruct Hacts as [H | H]; now contradiction H. }
  destruct (connect_to_sheet s).1.
  2:{ destruct Hrun as [_ Hworld]. rewrite Hworld, events_since_same in Hacts.
      destruct Hacts as [H | H]; now contradiction H. }
  destruct (client_raises env (client_calls w)); cbn [negb andb] in Hrun.
  { destruct Hrun as [_ Hworld]. rewrite Hworld, events_since_after_read in Hacts.
    destruct Hacts as [H | H]; now contradiction H. }
  destruct (check_sheet_format (sheet w)).
  2:{ destruct Hrun as [_ Hworld]. rewrite Hworld, events_since_after_read in Hacts.
      destruct Hacts as [H | H]; now contradiction H. }
  repeat split.
Qed.

End SessionRun.

Lemma run_success_means_output_witness :
  exists name,
    name ∈ ["sad_01.mp4"; "notes.txt"]
    /\ is_video_file name = true
    /\ output_path name
       ∈ output_files
           (Session.run Sample.all_succeed vocabulary MoreSamples.ready
              (Sample.start Sample.captions)).2.
Proof.
  exact (proj2 (run_success_means_output Sample.all_succeed vocabulary
                  MoreSamples.ready (Sample.start Sample.captions) eq_refl)).
Defined.

Lemma run_checks_before_it_acts_witness :
  check_sheet_format Sample.captions = true.
Proof.
  refine (proj2 (proj2 (proj2 (proj2
            (run_checks_before_it_acts Sample.all_succeed vocabulary
               MoreSamples.ready (Sample.start Sample.captions) _))))).
  left. vm_compute. discriminate.
Defined.

(** The sample session: the id typed at the console is trimmed and saved,
    the video is rendered, and the file that is no video is left out. *)
Example sample_session :
  let result := Session.run Sample.all_succeed vocabulary MoreSamples.ready
                  (Sample.start Sample.captions) in
  result.1 = (true, Some "sheet-1")
  /\ output_files result.2 = ["output-videos/sad_01_edited.mp4"]
  /\ cell_writes (log result.2) = [(3%nat, 1%nat, "TRUE")].
Proof. cbv zeta. split; [|split]; reflexivity. Qed.

(** Under capitalised headers the sheet passes the check of its format,
    and yet no caption is found for the video: the selector reads the key
    [used?] as it is spelled. *)
Example capitalised_headers_fail_the_batch :
  let result := Session.run Sample.all_succeed vocabulary MoreSamples.ready
                  (Sample.start MoreSamples.capitalised) in
  check_sheet_format MoreSamples.capitalised = true
  /\ result.1.1 = false
  /\ cell_writes (log result.2) = [].
Proof. cbv zeta. split; [|split]; reflexivity. Qed.
(** ** Text layout: what wrapping keeps *)

Section LayoutMore.

Import TextWrap.

Lemma visible_app (a b : list ascii) : visible (a ++ b) = (visible a ++ visible b)%list.
Proof. unfold visible. apply List.filter_app. Qed.

Lemma visible_blank (chunk : list ascii) : is_blank chunk = true -> visible chunk = [].
Proof.
  unfold is_blank, visible. induction chunk as [|c chunk IH]; [reflexivity|].
  cbn [forallb List.filter]. intros [Hc Hrest]%andb_true_iff.
  rewrite Hc. cbn [negb]. now apply IH.
Qed.

Lemma visible_spaces (n : nat) : visible (repeat SP n) = [].
Proof. induction n as [|n IH]; [reflexivity | exact IH]. Qed.

Lemma visible_translate (s : list ascii) : visible (translate_whitespace s) = visible s.
Proof.
  unfold translate_whitespace, visible. induction s as [|c s IH]; [reflexivity|].
  cbn [map List.filter]. rewrite IH.
  destruct (is_whitespace c) eqn:Hc; [|reflexivity].
  now rewrite (whitespace_is_space _ Hc).
Qed.

Lemma visible_expandtabs (column : nat) (s : list ascii) :
  visible (expandtabs 8 column s) = visible s.
Proof.
  revert column. induction s as [|c s IH]; intros column; [reflexivity|].
  cbn [expandtabs]. destruct (Ascii.eqb_spec c HT) as [-> | Hne].
  - rewrite visible_app, visible_spaces, IH. reflexivity.
  - change (c :: ?l) with ([c] ++ l)%list. rewrite !visible_app, IH. reflexivity.
Qed.

Lemma visible_join_lines (lines : list (list ascii)) :
  visible (join_lines lines) = visible (concat lines).
Proof.
  induction lines as [|l more IH]; [reflexivity|].
  destruct more as [|l' more].
  - cbn [join_lines concat]. now rewrite app_nil_r.
  - change (join_lines (l :: l' :: more))
      with (l ++ [LF] ++ join_lines (l' :: more))%list.
    change (concat (l :: l' :: more)) with (l ++ concat (l' :: more))%list.
    rewrite !visible_app, IH. reflexivity.
Qed.

Lemma visible_segmented (chunks : list (list ascii))
    (groups : list (list (list ascii))) :
  segmented chunks groups ->
  visible (concat (map (@concat ascii) groups)) = visible (concat chunks).
Proof.
  induction 1 as [|chunk chunks groups Hblank _ IH|group chunks groups _ _ IH].
  - reflexivity.
  - cbn [concat]. rewrite visible_app, (visible_blank _ Hblank). exact IH.
  - cbn [map concat]. rewrite concat_app, !visible_app, IH. reflexivity.
Qed.

(** X22. Wrapping changes white space only: the characters of the wrapped
    caption that are no white space are those of the caption, in the same
    order, whether the caption holds hyphens or not. *)
Theorem wrap_keeps_visible_characters (text : string) :
  visible (list_ascii_of_string (wrap_text_for_margins text))
  = visible (list_ascii_of_string text).
Proof.
  unfold wrap_text_for_margins, fill, wrap, split_chunks.
  rewrite list_ascii_of_string_of_list_ascii, visible_join_lines.
  destruct (wrap_chunks_spec chars_per_line
              (split (munge_whitespace (list_ascii_of_string text))))
    as (groups & -> & Hseg & _).
  rewrite (visible_segmented _ _ Hseg), concat_split.
  unfold munge_whitespace. now rewrite visible_translate, visible_expandtabs.
Qed.

(** *** A caption that fits on one line *)

Lemma split_from_nonempty (m : mode) (before cur rest : list ascii) :
  Forall (fun chunk => chunk <> []) (split_from m before cur rest).
Proof.
  assert (Hflush : forall cur', Forall (fun chunk : list ascii => chunk <> []) (flush cur')).
  { intros [|c cur']; [constructor|]. constructor; [|constructor].
    cbn [rev]. intros Habs. now apply app_eq_nil in Habs as [_ Habs]. }
  revert m before cur. induction rest as [|c rest IH]; intros m before cur.
  - apply Hflush.
  - cbn [split_from]. apply Forall_app. split.
    + destruct (match cur with [] => true | _ :: _ => ends_before m before c rest end);
        [apply Hflush | constructor].
    + destruct (hyphen_break _ _ _ _ _); [|apply IH].
      constructor; [|apply IH].
      cbn [rev]. intros Habs. now apply app_eq_nil in Habs as [_ Habs].
Qed.

Lemma take_fitting_all (width cur_len : nat) (chunks : list (list ascii)) :
  (cur_len + length (concat chunks) <= width)%nat ->
  take_fitting width cur_len chunks = (chunks, []).
Proof.
  revert cur_len. induction chunks as [|c chunks IH]; intros cur_len Hfit;
    [reflexivity|].
  cbn [concat] in Hfit. rewrite length_app in Hfit. cbn [take_fitting].
  replace (cur_len + length c <=? width)%nat with true
    by (symmetry; apply Nat.leb_le; lia).
  rewrite IH by lia. reflexivity.
Qed.

Lemma last_concat (chunks : list (list ascii)) (chunk : list ascii) :
  last chunks = Some chunk -> chunk <> [] ->
  last (concat chunks) = last chunk.
Proof.
  intros Hlast Hne. apply last_Some in Hlast as [front ->].
  rewrite concat_app. cbn [concat]. rewrite app_nil_r.
  destruct (last chunk) as [x|] eqn:Hx.
  - apply last_Some in Hx as [l' ->]. rewrite app_assoc. apply last_snoc.
  - apply last_None in Hx. contradiction.
Qed.

Lemma last_map {A B} (f : A -> B) (l : list A) :
  last (map f l) = option_map f (last l).
Proof.
  induction l as [|a l IH]; [reflexivity|].
  destruct l as [|b l]; [reflexivity | exact IH].
Qed.

Lemma blank_last (chunk : list ascii) (c : ascii) :
  is_blank chunk = true -> last chunk = Some c -> Py.isspace c = true.
Proof.
  unfold is_blank. rewrite forallb_forall. intros Hall Hlast.
  apply Hall. apply last_Some in Hlast as [front ->].
  apply in_or_app. right. now left.
Qed.

(** X23. A caption of at most 23 characters that holds no tab and does
    not end in white space, as the selector returns it, comes out as one
    line: the caption itself, with every white space character turned
    into a space. *)
Theorem short_caption_on_one_line (text : string) :
  (String.length text <= chars_per_line)%nat ->
  HT ∉ list_ascii_of_string text ->
  (forall c, last (list_ascii_of_string text) = Some c -> Py.isspace c = false) ->
  wrap_text_for_margins text
  = string_of_list_ascii (translate_whitespace (list_ascii_of_string text)).
Proof.
  intros Hlen Htab Hend. unfold wrap_text_for_margins. f_equal.
  unfold fill, wrap, split_chunks, munge_whitespace.
  assert (Hexpand : forall column s, HT ∉ s -> expandtabs 8 column s = s).
  { intros column s. revert column. induction s as [|c s IH]; intros column Hs;
      [reflexivity|].
    cbn [expandtabs]. destruct (Ascii.eqb_spec c HT) as [-> | Hne].
    - exfalso. apply Hs, list_elem_of_here.
    - f_equal. apply IH. intros Hin. apply Hs. now apply list_elem_of_further. }
  rewrite Hexpand by assumption.
  set (s := translate_whitespace (list_ascii_of_string text)).
  assert (Hs : length s = String.length text).
  { subst s. unfold translate_whitespace.
    rewrite length_map. clear. induction text; cbn; congruence. }
  assert (Hsend : forall c, last s = Some c -> Py.isspace c = false).
  { subst s. unfold translate_whitespace. intros c Hc.
    rewrite last_map in Hc.
    destruct (last (list_ascii_of_string text)) as [x|] eqn:Hx; [|discriminate].
    cbn in Hc. injection Hc as <-. specialize (Hend x eq_refl).
    destruct (is_whitespace x) eqn:Hws; [|exact Hend].
    apply whitespace_is_space in Hws. congruence. }
  pose proof (concat_split s) as Hconcat.
  pose proof (split_from_nonempty InWord [] [] s) as Hnonempty.
  fold (split s) in Hnonempty.
  destruct (split s) as [|chunk chunks] eqn:Hchunks.
  { cbn in Hconcat. rewrite <- Hconcat. reflexivity. }
  unfold wrap_chunks. cbn [length wrap_loop started]. unfold next_line.
  replace (is_blank chunk && false) with false by now rewrite andb_false_r.
  rewrite (take_fitting_all chars_per_line 0 (chunk :: chunks))
    by (rewrite Hconcat, Hs; cbn [Nat.add]; exact Hlen).
  cbn [handle_long_word].
  assert (Hkeep : drop_trailing_blank (chunk :: chunks) = chunk :: chunks).
  { unfold drop_trailing_blank.
    destruct (last (chunk :: chunks)) as [final|] eqn:Hfinal; [|reflexivity].
    destruct (is_blank final) eqn:Hblank; [|reflexivity]. exfalso.
    assert (Hne : final <> []).
    { rewrite Forall_forall in Hnonempty. apply Hnonempty.
      apply last_Some in Hfinal as [front ->]. apply elem_of_app. right.
      apply list_elem_of_here. }
    pose proof (last_concat _ _ Hfinal Hne) as Hlast. rewrite Hconcat in Hlast.
    destruct (last final) as [c|] eqn:Hc; [|now apply last_None in Hc].
    pose proof (blank_last _ _ Hblank Hc) as Hspace.
    rewrite (Hsend c Hlast) in Hspace. discriminate. }
  rewrite Hkeep. cbn [add_line app]. destruct (length chunks); cbn [wrap_loop default];
    cbn [join_lines]; exact Hconcat.
Qed.

End LayoutMore.

Lemma short_caption_on_one_line_witness : wrap_text_for_margins "Miss you" = "Miss you".
Proof.
  refine (short_caption_on_one_line "Miss you" _ _ _).
  - vm_compute. lia.
  - apply absent_by_test. reflexivity.
  - intros c [= <-]. reflexivity.
Defined.

(** Line feeds in a caption are white space like any other: they come
    out as spaces, and the line breaks are set anew. *)
Example line_feed_becomes_space :
  wrap_text_for_margins ("Miss" +:+ String TextWrap.LF "you") = "Miss you".
Proof. vm_compute. reflexivity. Qed.
